(** * Bloom soundness check: a model of [app.py]

    The program tests whether an address or a topic may occur in the logs
    of a block, from the 2048-bit [logsBloom] field of the block header.
    This development embeds [app.py]: [bloom_indexes], [bloom_check],
    [parse_hex], [network_name], [fetch_logs_count] and [main], run against
    a node that stands for what [web3] answers, and proves the properties
    stated about them.

    Python integers are unbounded, so the field is a [Z]; bytes objects are
    lists of [Byte.byte]; an uncaught Python exception is the [Raise] case
    of [result]. *)

From Stdlib Require Import Ascii String Init.Byte Strings.Byte.
From Stdlib Require Import ZArith NArith List Bool Lia.
From Stdlib Require Import DecimalString DecimalZ.
Import ListNotations.

Local Open Scope Z_scope.

Definition bytes : Type := list Byte.byte.

(** ** Exceptions *)

Inductive exn : Type :=
| IndexError
| ValueError
| ProviderError.

Inductive result (A : Type) : Type :=
| Ok (a : A)
| Raise (e : exn).

Arguments Ok {A} a.
Arguments Raise {A} e.

Definition bind {A B : Type} (m : result A) (k : A -> result B) : result B :=
  match m with
  | Ok a => k a
  | Raise e => Raise e
  end.

Notation "x <- m ;; k" := (bind m (fun x => k))
  (at level 61, m at next level, right associativity).

(** ** Keccak-256

    [Web3.keccak] is the Keccak-256 hash of the [eth-hash] back end: the
    sponge over Keccak-f[1600] with rate 136 bytes and the original
    padding byte 0x01 (not the 0x06 of SHA3-256).  The state is 25 lanes of
    64 bits, lane [x + 5 * y] at position (x, y). *)

Module Keccak.

Local Open Scope N_scope.

Definition lane_mask : N := 0xFFFFFFFFFFFFFFFF.

Definition rol64 (a n : N) : N :=
  N.land (N.lor (N.shiftl a n) (N.shiftr a (64 - n))) lane_mask.

Definition lane (st : list N) (i : nat) : N := nth i st 0.

Definition rotation_offsets : list N :=
  [ 0;  1; 62; 28; 27;
   36; 44;  6; 55; 20;
    3; 10; 43; 25; 39;
   41; 45; 15; 21;  8;
   18;  2; 61; 56; 14].

Definition round_constants : list N :=
  [0x0000000000000001; 0x0000000000008082; 0x800000000000808A;
   0x8000000080008000; 0x000000000000808B; 0x0000000080000001;
   0x8000000080008081; 0x8000000000008009; 0x000000000000008A;
   0x0000000000000088; 0x0000000080008009; 0x000000008000000A;
   0x000000008000808B; 0x800000000000008B; 0x8000000000008089;
   0x8000000000008003; 0x8000000000008002; 0x8000000000000080;
   0x000000000000800A; 0x800000008000000A; 0x8000000080008081;
   0x8000000000008080; 0x0000000080000001; 0x8000000080008008].

Definition positions : list nat := seq 0 25.

(** theta: every lane is xored with the parities of two neighbour columns. *)
Definition theta (st : list N) : list N :=
  let C := fun x : nat =>
    N.lxor (lane st x) (N.lxor (lane st (x + 5)) (N.lxor (lane st (x + 10))
      (N.lxor (lane st (x + 15)) (lane st (x + 20))))) in
  let D := fun x : nat =>
    N.lxor (C ((x + 4) mod 5)%nat) (rol64 (C ((x + 1) mod 5)%nat) 1) in
  let Ds := map D (seq 0 5) in
  map (fun i => N.lxor (lane st i) (nth (i mod 5) Ds 0)) positions.

(** rho and pi: lane (x, y) is rotated and moved to (y, 2x + 3y); read
    backwards, position (X, Y) receives the lane at ((X + 3Y) mod 5, X). *)
Definition rho_pi (st : list N) : list N :=
  map (fun j =>
         let X := (j mod 5)%nat in
         let Y := (j / 5)%nat in
         let src := ((X + 3 * Y) mod 5 + 5 * X)%nat in
         rol64 (lane st src) (nth src rotation_offsets 0))
      positions.

(** chi: the only non-linear step, along rows. *)
Definition chi (st : list N) : list N :=
  map (fun i =>
         let x := (i mod 5)%nat in
         let row := (5 * (i / 5))%nat in
         N.lxor (lane st i)
                (N.ldiff (lane st ((x + 2) mod 5 + row))
                         (lane st ((x + 1) mod 5 + row))))
      positions.

Definition iota (rc : N) (st : list N) : list N :=
  match st with
  | [] => []
  | a :: rest => N.lxor a rc :: rest
  end.

Definition round (st : list N) (rc : N) : list N :=
  iota rc (chi (rho_pi (theta st))).

Definition keccak_f (st : list N) : list N :=
  fold_left round round_constants st.

(** Xor the byte [b] into the state at byte offset [p] (lanes are
    little-endian). *)
Fixpoint xor_lane (st : list N) (i : nat) (v : N) : list N :=
  match st, i with
  | [], _ => []
  | a :: rest, O => N.lxor a v :: rest
  | a :: rest, S i' => a :: xor_lane rest i' v
  end.

Definition xor_byte (st : list N) (p : nat) (b : N) : list N :=
  xor_lane st (p / 8) (N.shiftl b (8 * N.of_nat (p mod 8))).

Definition rate : nat := 136.

(** Absorb the message byte by byte; the permutation runs each time a block
    of [rate] bytes is full. *)
Fixpoint absorb (st : list N) (pos : nat) (msg : bytes) : list N * nat :=
  match msg with
  | [] => (st, pos)
  | b :: rest =>
      let st' := xor_byte st pos (Byte.to_N b) in
      if Nat.eqb (S pos) rate then absorb (keccak_f st') 0 rest
      else absorb st' (S pos) rest
  end.

Definition byte_of_N (n : N) : Byte.byte :=
  match Byte.of_N (n mod 256) with
  | Some b => b
  | None => Byte.x00
  end.

Definition lane_bytes (a : N) : bytes :=
  [byte_of_N a; byte_of_N (N.shiftr a 8); byte_of_N (N.shiftr a 16);
   byte_of_N (N.shiftr a 24); byte_of_N (N.shiftr a 32);
   byte_of_N (N.shiftr a 40); byte_of_N (N.shiftr a 48);
   byte_of_N (N.shiftr a 56)].

Definition squeeze (st : list N) : bytes :=
  (lane_bytes (lane st 0) ++ lane_bytes (lane st 1) ++
   lane_bytes (lane st 2) ++ lane_bytes (lane st 3))%list.

Definition initial_state : list N := repeat 0 25.

Definition keccak256 (msg : bytes) : bytes :=
  let '(st, pos) := absorb initial_state 0 msg in
  let padded := xor_byte (xor_byte st pos 0x01) (rate - 1) 0x80 in
  squeeze (keccak_f padded).

End Keccak.

Definition keccak256 : bytes -> bytes := Keccak.keccak256.

(** ** The bloom functions of [app.py] *)

Definition byte_value (b : Byte.byte) : Z := Z.of_N (Byte.to_N b).

(** [h[k]] on a bytes object, for [k >= 0]. *)
Definition getitem (h : bytes) (k : nat) : result Z :=
  match nth_error h k with
  | Some b => Ok (byte_value b)
  | None => Raise IndexError
  end.

(** [a >> n]: Python refuses a negative shift count. *)
Definition rshift (a n : Z) : result Z :=
  if n <? 0 then Raise ValueError else Ok (Z.shiftr a n).

(** One element of the comprehension of [bloom_indexes]:
    [((h[2*i] << 8) | h[2*i + 1]) & 2047]. *)
Definition index_at (h : bytes) (i : nat) : result Z :=
  hi <- getitem h (2 * i) ;;
  lo <- getitem h (2 * i + 1) ;;
  Ok (Z.land (Z.lor (Z.shiftl hi 8) lo) 2047).

(** A list comprehension whose body may raise. *)
Fixpoint comprehension {A B : Type} (f : A -> result B) (l : list A)
  : result (list B) :=
  match l with
  | [] => Ok []
  | a :: rest =>
      b <- f a ;;
      bs <- comprehension f rest ;;
      Ok (b :: bs)
  end.

Definition bloom_indexes (data : bytes) : result (list Z) :=
  let h := keccak256 data in
  comprehension (index_at h) (seq 0 3).

(** The [for] loop of [bloom_check], over the indices already derived. *)
Fixpoint check_bits (bloom_int : Z) (idxs : list Z) : result bool :=
  match idxs with
  | [] => Ok true
  | idx :: rest =>
      shifted <- rshift bloom_int idx ;;
      if Z.land shifted 1 =? 0 then Ok false
      else check_bits bloom_int rest
  end.

Definition bloom_check (bloom_int : Z) (data : bytes) : result bool :=
  idxs <- bloom_indexes data ;;
  check_bits bloom_int idxs.

(** ** [parse_hex]

    A [str] is modelled by [string]; [bytes.fromhex] is the built-in of
    CPython: two hexadecimal digits per byte, ASCII white space skipped
    between bytes, [ValueError] on anything else. *)

Local Open Scope char_scope.

Definition hex_digit (c : ascii) : option N :=
  let n := N_of_ascii c in
  if (N.leb 48 n && N.leb n 57)%bool then Some (n - 48)%N
  else if (N.leb 97 n && N.leb n 102)%bool then Some (n - 87)%N
  else if (N.leb 65 n && N.leb n 70)%bool then Some (n - 55)%N
  else None.

Definition is_space (c : ascii) : bool :=
  let n := N_of_ascii c in
  (N.eqb n 32 || (N.leb 9 n && N.leb n 13))%bool.

Local Close Scope char_scope.

Fixpoint fromhex (s : string) : result bytes :=
  match s with
  | EmptyString => Ok []
  | String c rest =>
      if is_space c then fromhex rest
      else
        match hex_digit c, rest with
        | Some top, String c' rest' =>
            match hex_digit c' with
            | Some bot =>
                bs <- fromhex rest' ;;
                Ok (Keccak.byte_of_N (16 * top + bot) :: bs)
            | None => Raise ValueError
            end
        | _, _ => Raise ValueError
        end
  end.

(** [s[2:]] *)
Definition drop2 (s : string) : string :=
  match s with
  | String _ (String _ rest) => rest
  | _ => EmptyString
  end.

Definition parse_hex (s kind : string) : result bytes :=
  if negb (String.prefix "0x" s) then Raise ValueError
  else
    let h := drop2 s in
    fromhex h.

(** ** The verification branch of [main]

    [addr_ok] and [topic_ok] are [None] when the option was not given, and
    the result of [bloom_check] otherwise; [fetched] is what
    [fetch_logs_count] returned or raised. *)

Inductive report : Type :=
| ExactLogsFound (count : Z)
| SoundnessWarning
| FalsePositiveNote
| LogFetchFailed.

(** [x is False] and [x is True] *)
Definition is_False (x : option bool) : bool :=
  match x with
  | Some false => true
  | _ => false
  end.

Definition is_True (x : option bool) : bool :=
  match x with
  | Some true => true
  | _ => false
  end.

Definition soundness_violation (addr_ok topic_ok : option bool) (count : Z)
  : bool :=
  (is_False addr_ok || is_False topic_ok) && (count >? 0).

Definition benign_false_positive (addr_ok topic_ok : option bool) (count : Z)
  : bool :=
  (is_True addr_ok || is_True topic_ok) && (count =? 0).

Definition verify (addr_ok topic_ok : option bool) (fetched : result Z)
  : list report :=
  match fetched with
  | Ok count =>
      ExactLogsFound count
      :: (if soundness_violation addr_ok topic_ok count
          then [SoundnessWarning] else [])
      ++ (if benign_false_positive addr_ok topic_ok count
          then [FalsePositiveNote] else [])
  | Raise _ => [LogFetchFailed]
  end.

(** ** [network_name]

    [NETWORKS] is a dict literal; [dict_get] is [dict.get] with a default.
    The f-string prints the chain id in decimal. *)

Fixpoint dict_get {V : Type} (d : list (Z * V)) (k : Z) (default : V) : V :=
  match d with
  | [] => default
  | (k', v) :: rest => if k =? k' then v else dict_get rest k default
  end.

Definition NETWORKS : list (Z * string) :=
  [(1, "Ethereum Mainnet"%string);
   (11155111, "Sepolia Testnet"%string);
   (10, "Optimism"%string);
   (137, "Polygon"%string);
   (42161, "Arbitrum One"%string)].

(** [str(n)] for an integer. *)
Definition str_of_int (n : Z) : string :=
  DecimalString.NilZero.string_of_int (Z.to_int n).

Definition network_name (cid : Z) : string :=
  dict_get NETWORKS cid
    ("Unknown (chain ID " ++ str_of_int cid ++ ")")%string.

(** ** [int.from_bytes(bloom_bytes, "big")] *)

Definition int_from_bytes_big (bs : bytes) : Z :=
  fold_left (fun acc b => acc * 256 + byte_value b) bs 0.

(** ** The node behind an RPC endpoint

    What [app.py] asks of [web3]: whether the endpoint answers, the chain
    id (asked more than once, so the answer depends on which time it is),
    the header of a block, whose [logsBloom] converts to bytes or not, the
    logs matching a filter (whose entries the program only counts), and the
    checksummed form of an address.  Each call either returns or raises. *)

Inductive value : Type :=
| VInt (n : Z)
| VStr (s : string)
| VList (l : list string).

(** A dict with string keys, in insertion order. *)
Definition params : Type := list (string * value).

Fixpoint params_set (d : params) (k : string) (v : value) : params :=
  match d with
  | [] => [(k, v)]
  | (k', v') :: rest =>
      if String.eqb k k' then (k, v) :: rest
      else (k', v') :: params_set rest k v
  end.

Fixpoint params_get (d : params) (k : string) : option value :=
  match d with
  | [] => None
  | (k', v) :: rest => if String.eqb k k' then Some v else params_get rest k
  end.

(** [bytes(header.logsBloom)] *)
Record header : Type := Header {
  logsBloom : result bytes
}.

Record node (log : Type) : Type := Node {
  is_connected : bool;
  chain_id : nat -> result Z;
  get_block : Z -> result header;
  get_logs : params -> result (list log);
  to_checksum_address : string -> result string
}.

Arguments Node {log}.
Arguments is_connected {log}.
Arguments chain_id {log}.
Arguments get_block {log}.
Arguments get_logs {log}.
Arguments to_checksum_address {log}.

(** The value of an optional string when it is truthy: neither [None] nor
    the empty string. *)
Definition truthy (s : option string) : option string :=
  match s with
  | Some (String c rest) => Some (String c rest)
  | _ => None
  end.

(** ** [fetch_logs_count] *)

Definition log_params {log : Type} (w3 : node log) (block_number : Z)
    (address topic0 : option string) : result params :=
  let params0 :=
    [("fromBlock"%string, VInt block_number);
     ("toBlock"%string, VInt block_number)] in
  params1 <-
    match truthy address with
    | Some a =>
        checksummed <- to_checksum_address w3 a ;;
        Ok (params_set params0 "address" (VStr checksummed))
    | None => Ok params0
    end ;;
  match truthy topic0 with
  | Some t => Ok (params_set params1 "topics" (VList [t]))
  | None => Ok params1
  end.

Definition fetch_logs_count {log : Type} (w3 : node log) (block_number : Z)
    (address topic0 : option string) : result Z :=
  query <- log_params w3 block_number address topic0 ;;
  logs <- get_logs w3 query ;;
  Ok (Z.of_nat (List.length logs)).

(** ** [main]

    A run of [main] starts from what was written to the console so far
    and ends with what has been written then, together with a value or the
    reason it stopped: [sys.exit], or an exception on its way up.  The
    console takes a line or raises (a console that cannot show a symbol, a
    closed pipe); [argparse] has either produced the arguments or ended
    the run with its usage text. *)

Record args : Type := Args {
  block : Z;
  address : option string;
  topic0 : option string;
  rpc : string;
  verify_flag : bool
}.

Inductive cmdline : Type :=
| Parsed (a : args)
| Refused (code : Z).

Inductive line : Type :=
| Usage
| NeedCandidate
| ConnectFailed
| Connected (name : string) (cid : Z)
| BlockLoadFailed (block : Z) (e : exn)
| InvalidAddress
| ParseFailed (e : exn)
| BlockLine (block : Z)
| AddressLine (checksummed : string) (present : bool)
| TopicLine (topic : string) (present : bool)
| Report (r : report)
| Elapsed.

Inductive stop : Type :=
| Exit (code : Z)
| Raised (e : exn).

Definition console : Type := list line -> line -> result unit.

Definition run (A : Type) : Type := list line -> list line * (stop + A).

Definition ret {A : Type} (a : A) : run A := fun out => (out, inr a).

Definition and_then {A B : Type} (m : run A) (k : A -> run B) : run B :=
  fun out =>
    match m out with
    | (out', inl s) => (out', inl s)
    | (out', inr a) => k a out'
    end.

Notation "x <~ m ;; k" := (and_then m (fun x => k))
  (at level 61, m at next level, right associativity).

Definition print (tty : console) (l : line) : run unit :=
  fun out =>
    match tty out l with
    | Ok _ => ((out ++ [l])%list, inr tt)
    | Raise e => (out, inl (Raised e))
    end.

Definition sys_exit {A : Type} (code : Z) : run A :=
  fun out => (out, inl (Exit code)).

(** A call that returns or raises. *)
Definition call {A : Type} (r : result A) : run A :=
  fun out =>
    match r with
    | Ok a => (out, inr a)
    | Raise e => (out, inl (Raised e))
    end.

(** [try: m  except Exception as e: handler e]; [SystemExit] is not an
    [Exception] and passes through. *)
Definition try_except {A : Type} (m : run A) (handler : exn -> run A)
  : run A :=
  fun out =>
    match m out with
    | (out', inl (Raised e)) => handler e out'
    | other => other
    end.

(** ['present' if ok else 'not set'] *)
Definition says_present (ok : option bool) : bool :=
  match ok with
  | Some true => true
  | _ => false
  end.

(** [ap.parse_args()] *)
Definition parse_args (tty : console) (cmd : cmdline) : run args :=
  match cmd with
  | Parsed a => ret a
  | Refused code => _ <~ print tty Usage ;; sys_exit code
  end.

Definition connect {log : Type} (tty : console)
    (endpoints : string -> node log) (rpc : string) : run (node log) :=
  let w3 := endpoints rpc in
  if negb (is_connected w3) then
    _ <~ print tty ConnectFailed ;; sys_exit 1
  else ret w3.

(** [bytes.fromhex(Web3.to_checksum_address(args.address)[2:])] *)
Definition address_bytes {log : Type} (w3 : node log) (a : string)
  : result bytes :=
  checksummed <- to_checksum_address w3 a ;;
  fromhex (drop2 checksummed).

Definition main {log : Type} (tty : console)
    (endpoints : string -> node log) (cmd : cmdline) : run unit :=
  a <~ parse_args tty cmd ;;
  _ <~ match truthy (address a), truthy (topic0 a) with
       | None, None => _ <~ print tty NeedCandidate ;; sys_exit 1
       | _, _ => ret tt
       end ;;
  w3 <~ connect tty endpoints (rpc a) ;;
  cid <~ call (chain_id w3 0%nat) ;;
  cid' <~ call (chain_id w3 1%nat) ;;
  _ <~ print tty (Connected (network_name cid) cid') ;;
  header <~ try_except
              (call (get_block w3 (block a)))
              (fun e =>
                 _ <~ print tty (BlockLoadFailed (block a) e) ;; sys_exit 2) ;;
  bloom_bytes <~ call (logsBloom header) ;;
  let bloom_int := int_from_bytes_big bloom_bytes in
  addr_ok <~ match truthy (address a) with
             | Some s =>
                 addr_bytes <~ try_except
                                 (call (address_bytes w3 s))
                                 (fun _ =>
                                    _ <~ print tty InvalidAddress ;;
                                    sys_exit 1) ;;
                 ok <~ call (bloom_check bloom_int addr_bytes) ;;
                 ret (Some ok)
             | None => ret None
             end ;;
  topic_ok <~ match truthy (topic0 a) with
              | Some s =>
                  topic_bytes <~ try_except
                                   (call (parse_hex s "topic0"))
                                   (fun e =>
                                      _ <~ print tty (ParseFailed e) ;;
                                      sys_exit 1) ;;
                  ok <~ call (bloom_check bloom_int topic_bytes) ;;
                  ret (Some ok)
              | None => ret None
              end ;;
  _ <~ print tty (BlockLine (block a)) ;;
  _ <~ match truthy (address a) with
       | Some s =>
           checksummed <~ call (to_checksum_address w3 s) ;;
           print tty (AddressLine checksummed (says_present addr_ok))
       | None => ret tt
       end ;;
  _ <~ match truthy (topic0 a) with
       | Some s => print tty (TopicLine s (says_present topic_ok))
       | None => ret tt
       end ;;
  _ <~ (if verify_flag a then
          try_except
            (count <~ call (fetch_logs_count w3 (block a)
                                             (address a) (topic0 a)) ;;
             _ <~ print tty (Report (ExactLogsFound count)) ;;
             _ <~ (if soundness_violation addr_ok topic_ok count
                   then print tty (Report SoundnessWarning)
                   else ret tt) ;;
             if benign_false_positive addr_ok topic_ok count
             then print tty (Report FalsePositiveNote)
             else ret tt)
            (fun e => print tty (Report LogFetchFailed))
        else ret tt) ;;
  print tty Elapsed.

(** ** Definitions used to state the properties *)

(** The value the documentation of [bloom_indexes] gives for index [i]:
    [uint16(hash[2*i] << 8 | hash[2*i+1]) % 2048]. *)
Definition documented_index (h : bytes) (i : nat) : option Z :=
  match nth_error h (2 * i), nth_error h (2 * i + 1) with
  | Some hi, Some lo =>
      Some (Z.lor (Z.shiftl (byte_value hi) 8) (byte_value lo) mod 2048)
  | _, _ => None
  end.

(** Two digest bytes read as a big-endian 16-bit number, modulo 2048. *)
Definition fold16 (hi lo : Byte.byte) : Z :=
  Z.lor (Z.shiftl (byte_value hi) 8) (byte_value lo) mod 2048.

(** The test [(F >> idx) & 1 == 1] on bit [idx] of a field. *)
Definition bit_is_set (F idx : Z) : Prop := Z.land (Z.shiftr F idx) 1 = 1.

(** Building a field: inserting a candidate sets its derived bits, and
    nothing else; a field is built from the empty field [0]. *)
Definition set_bit (F idx : Z) : Z := Z.lor F (Z.shiftl 1 idx).

Definition bloom_insert (F : Z) (c : bytes) : result Z :=
  idxs <- bloom_indexes c ;;
  Ok (fold_left set_bit idxs F).

Fixpoint bloom_insert_all (F : Z) (cs : list bytes) : result Z :=
  match cs with
  | [] => Ok F
  | c :: rest =>
      F' <- bloom_insert F c ;;
      bloom_insert_all F' rest
  end.

Definition bloom_of (cs : list bytes) : result Z := bloom_insert_all 0 cs.

(** [k] is one of the indices derived from a candidate of [cs]. *)
Definition derived_from (cs : list bytes) (k : Z) : Prop :=
  exists c idxs, In c cs /\ bloom_indexes c = Ok idxs /\ In k idxs.

(** The field with all of its 2048 bits set. *)
Definition full_field : Z := 2 ^ 2048 - 1.

(** Lower-case hexadecimal text of a byte string. *)
Definition hex_char (n : N) : ascii :=
  ascii_of_N (if N.ltb n 10 then n + 48 else n + 87).

Fixpoint hexlify (bs : bytes) : string :=
  match bs with
  | [] => EmptyString
  | b :: rest =>
      String (hex_char (Byte.to_N b / 16))
        (String (hex_char (Byte.to_N b mod 16)) (hexlify rest))
  end.

(** A 20-byte address whose last two bytes are [hi] and [lo]. *)
Definition small_address (hi lo : Byte.byte) : bytes :=
  (repeat Byte.x00 18 ++ [hi; lo])%list.

(** [b] is the result of every membership test that was made, and at least
    one was made. *)
Definition tested_as (addr_ok topic_ok : option bool) (b : bool) : Prop :=
  (addr_ok = Some b /\ topic_ok = None) \/
  (addr_ok = None /\ topic_ok = Some b) \/
  (addr_ok = Some b /\ topic_ok = Some b).

(** Bit [k] of a header field read from its bytes: bit [k mod 8] of the
    byte [k / 8] places before the last one. *)
Definition header_bit (bs : bytes) (k : Z) : bool :=
  Z.testbit
    (byte_value (nth (List.length bs - 1 - Z.to_nat (k / 8)) bs Byte.x00))
    (k mod 8).

(** ASCII lower case of a character, and a text without its white space
    and in lower case. *)
Definition lower (c : ascii) : ascii :=
  let n := N_of_ascii c in
  if (N.leb 65 n && N.leb n 90)%bool then ascii_of_N (n + 32) else c.

Fixpoint lower_text (s : string) : string :=
  match s with
  | EmptyString => EmptyString
  | String c rest => String (lower c) (lower_text rest)
  end.

Fixpoint squash (s : string) : string :=
  match s with
  | EmptyString => EmptyString
  | String c rest =>
      if is_space c then squash rest else String (lower c) (squash rest)
  end.

(** The same node with another answer to the log queries. *)
Definition with_logs {log : Type} (w3 : node log)
    (answer : params -> result (list log)) : node log :=
  Node (is_connected w3) (chain_id w3) (get_block w3) answer
       (to_checksum_address w3).

(** One of the candidates given on the command line decodes to bytes that
    the membership test on the field of the header bytes reports absent. *)
Definition some_test_failed {log : Type} (w3 : node log) (bloom_bytes : bytes)
    (a : args) : Prop :=
  (exists s addr_bytes,
      truthy (address a) = Some s /\
      address_bytes w3 s = Ok addr_bytes /\
      bloom_check (int_from_bytes_big bloom_bytes) addr_bytes = Ok false) \/
  (exists s topic_bytes,
      truthy (topic0 a) = Some s /\
      parse_hex s "topic0" = Ok topic_bytes /\
      bloom_check (int_from_bytes_big bloom_bytes) topic_bytes = Ok false).

(** A console that takes every line. *)
Definition quiet_console : console := fun _ _ => Ok tt.

(** The verification lines among the lines printed, in order. *)
Fixpoint reports_of (out : list line) : list report :=
  match out with
  | [] => []
  | Report r :: rest => r :: reports_of rest
  | _ :: rest => reports_of rest
  end.

(** * Properties *)

(** ** The digest *)

Lemma lane_bytes_length (a : N) : length (Keccak.lane_bytes a) = 8%nat.
Proof. reflexivity. Qed.

Lemma squeeze_length (st : list N) : length (Keccak.squeeze st) = 32%nat.
Proof.
  unfold Keccak.squeeze.
  rewrite !length_app, !lane_bytes_length.
  reflexivity.
Qed.

Lemma keccak256_length (data : bytes) : length (keccak256 data) = 32%nat.
Proof.
  unfold keccak256, Keccak.keccak256.
  destruct (Keccak.absorb Keccak.initial_state 0 data) as [st pos].
  apply squeeze_length.
Qed.

(** Known digests: the empty string, ["abc"], and the signature of the
    ERC-20 [Transfer] event. *)
Example keccak256_empty :
  hexlify (keccak256 []) =
  "c5d2460186f7233c927e7db2dcc703c0e500b653ca82273b7bfad8045d85a470"%string.
Proof. vm_compute. reflexivity. Qed.

Example keccak256_abc :
  hexlify (keccak256 (list_byte_of_string "abc")) =
  "4e03657aea45a94fc7d47ba826c8d667c0d1e6e33a64a036ec44f58fa12d6c45"%string.
Proof. vm_compute. reflexivity. Qed.

Example keccak256_transfer :
  hexlify (keccak256 (list_byte_of_string "Transfer(address,address,uint256)")) =
  "ddf252ad1be2c89b69c2b068fc378daa952ba7f163c4a11628f55a4df523b3ef"%string.
Proof. vm_compute. reflexivity. Qed.

(** Messages that end one byte before and exactly at the end of a block of
    136 bytes, where the two padding bytes meet or fill a block of their
    own. *)
Example keccak256_block_minus_one :
  hexlify (keccak256 (repeat "a"%byte 135)) =
  "34367dc248bbd832f4e3e69dfaac2f92638bd0bbd18f2912ba4ef454919cf446"%string.
Proof. vm_compute. reflexivity. Qed.

Example keccak256_full_block :
  hexlify (keccak256 (repeat "a"%byte 136)) =
  "a6c4d403279fe3e0af03729caada8374b5ca54d8065329a3ebcaeb4b60aa386e"%string.
Proof. vm_compute. reflexivity. Qed.

(** A message longer than one block. *)
Example keccak256_two_blocks :
  hexlify (keccak256 (repeat "a"%byte 200)) =
  "96ea54061def936c4be90b518992fdc6f12f535068a256229aca54267b4d084d"%string.
Proof. vm_compute. reflexivity. Qed.

Lemma digest_prefix (data : bytes) :
  exists b0 b1 b2 b3 b4 b5 rest,
    keccak256 data = b0 :: b1 :: b2 :: b3 :: b4 :: b5 :: rest.
Proof.
  pose proof (keccak256_length data) as Hlen.
  destruct (keccak256 data) as [|b0 [|b1 [|b2 [|b3 [|b4 [|b5 rest]]]]]];
    try discriminate Hlen.
  now exists b0, b1, b2, b3, b4, b5, rest.
Qed.

(** ** Bytes and bits *)

Lemma byte_value_range (b : Byte.byte) : 0 <= byte_value b < 256.
Proof.
  unfold byte_value.
  pose proof (Byte.to_N_bounded b).
  lia.
Qed.

Lemma mask_is_mod (x : Z) : Z.land x 2047 = x mod 2048.
Proof.
  change 2047 with (Z.ones 11).
  rewrite Z.land_ones by lia.
  reflexivity.
Qed.

Lemma bit_test (F idx : Z) :
  0 <= idx -> Z.land (Z.shiftr F idx) 1 = Z.b2z (Z.testbit F idx).
Proof.
  intros Hidx.
  change 1 with (Z.ones 1) at 1.
  rewrite Z.land_ones by lia.
  change (2 ^ 1) with 2.
  rewrite <- Z.bit0_mod, Z.shiftr_spec by lia.
  reflexivity.
Qed.

Lemma bit_is_set_testbit (F idx : Z) :
  0 <= idx -> bit_is_set F idx <-> Z.testbit F idx = true.
Proof.
  intros Hidx. unfold bit_is_set.
  rewrite bit_test by assumption.
  destruct (Z.testbit F idx); simpl; split; intros; congruence.
Qed.

(** ** Index derivation *)

Lemma fold16_range (hi lo : Byte.byte) : 0 <= fold16 hi lo < 2048.
Proof. unfold fold16. apply Z.mod_pos_bound. lia. Qed.

Lemma bloom_indexes_of_prefix (data : bytes) b0 b1 b2 b3 b4 b5 rest :
  keccak256 data = b0 :: b1 :: b2 :: b3 :: b4 :: b5 :: rest ->
  bloom_indexes data = Ok [fold16 b0 b1; fold16 b2 b3; fold16 b4 b5].
Proof.
  intros Hh. unfold bloom_indexes. rewrite Hh.
  cbn [seq comprehension index_at getitem nth_error bind Nat.mul Nat.add].
  rewrite !mask_is_mod.
  reflexivity.
Qed.

Lemma bloom_indexes_total (data : bytes) :
  exists i0 i1 i2,
    bloom_indexes data = Ok [i0; i1; i2] /\
    0 <= i0 < 2048 /\ 0 <= i1 < 2048 /\ 0 <= i2 < 2048.
Proof.
  destruct (digest_prefix data) as (b0 & b1 & b2 & b3 & b4 & b5 & rest & Hh).
  exists (fold16 b0 b1), (fold16 b2 b3), (fold16 b4 b5).
  split; [now apply bloom_indexes_of_prefix with (rest := rest)|].
  auto using fold16_range.
Qed.

Lemma bloom_indexes_range (data : bytes) (idxs : list Z) :
  bloom_indexes data = Ok idxs -> Forall (fun k => 0 <= k < 2048) idxs.
Proof.
  destruct (bloom_indexes_total data) as (i0 & i1 & i2 & Heq & H0 & H1 & H2).
  rewrite Heq. intros [= <-].
  repeat constructor; lia.
Qed.

(** ** The loop of the membership test *)

Lemma check_bits_forallb (F : Z) (idxs : list Z) :
  Forall (fun k => 0 <= k) idxs ->
  check_bits F idxs = Ok (forallb (Z.testbit F) idxs).
Proof.
  induction 1 as [|idx rest Hidx _ IH]; [reflexivity|].
  cbn [check_bits forallb].
  unfold rshift.
  destruct (Z.ltb_spec idx 0) as [Hneg|_]; [lia|].
  cbn [bind].
  rewrite bit_test by assumption.
  destruct (Z.testbit F idx); cbn [Z.b2z Z.eqb andb]; [exact IH|reflexivity].
Qed.

Lemma nonneg_of_range (idxs : list Z) :
  Forall (fun k => 0 <= k < 2048) idxs -> Forall (fun k => 0 <= k) idxs.
Proof. apply Forall_impl. intros; lia. Qed.

Lemma bloom_check_forallb (F : Z) (data : bytes) (idxs : list Z) :
  bloom_indexes data = Ok idxs ->
  bloom_check F data = Ok (forallb (Z.testbit F) idxs).
Proof.
  intros Hidx. unfold bloom_check. rewrite Hidx. cbn [bind].
  apply check_bits_forallb, nonneg_of_range.
  now apply bloom_indexes_range with (data := data).
Qed.

Lemma bloom_check_true_iff (F : Z) (data : bytes) (idxs : list Z) :
  bloom_indexes data = Ok idxs ->
  bloom_check F data = Ok true <-> (forall k, In k idxs -> Z.testbit F k = true).
Proof.
  intros Hidx.
  rewrite (bloom_check_forallb F data idxs Hidx), <- forallb_forall.
  split; [now intros [= ->] | now intros ->].
Qed.

(** C2. For every byte string, the empty one included, [bloom_indexes]
    raises nothing and returns exactly three integers, in order and without
    removing repeated values: the [i]-th one is the documented
    [((h[2*i] << 8) | h[2*i+1]) mod 2048] of the Keccak-256 digest [h], and
    lies in [0, 2048). *)
Theorem bloom_indexes_correct (data : bytes) :
  exists i0 i1 i2,
    documented_index (keccak256 data) 0 = Some i0 /\
    documented_index (keccak256 data) 1 = Some i1 /\
    documented_index (keccak256 data) 2 = Some i2 /\
    bloom_indexes data = Ok [i0; i1; i2] /\
    Forall (fun k => 0 <= k < 2048) [i0; i1; i2].
Proof.
  destruct (digest_prefix data) as (b0 & b1 & b2 & b3 & b4 & b5 & rest & Hh).
  exists (fold16 b0 b1), (fold16 b2 b3), (fold16 b4 b5).
  rewrite (bloom_indexes_of_prefix data _ _ _ _ _ _ _ Hh), Hh.
  repeat split.
  repeat constructor; apply fold16_range.
Qed.

(** The empty byte string, and an input two of whose indices coincide: the
    repeated value is kept. *)
Example bloom_indexes_empty : bloom_indexes [] = Ok [1490; 1537; 1783].
Proof. vm_compute. reflexivity. Qed.

Example bloom_indexes_repeated :
  bloom_indexes ["000"%byte; "031"%byte] = Ok [1734; 1789; 1734].
Proof. vm_compute. reflexivity. Qed.

(** C3. For every field [F], non-negative in particular, and every byte
    string [data], the membership test returns a boolean, and that boolean
    is [true] exactly when bit [idx] of [F] is set, [(F >> idx) & 1 == 1],
    for each of the three indices derived from [data]. *)
Theorem bloom_check_correct (F : Z) (data : bytes) :
  exists idxs b,
    bloom_indexes data = Ok idxs /\
    bloom_check F data = Ok b /\
    (b = true <-> Forall (bit_is_set F) idxs).
Proof.
  destruct (bloom_indexes_total data) as (i0 & i1 & i2 & Heq & H0 & H1 & H2).
  exists [i0; i1; i2], (forallb (Z.testbit F) [i0; i1; i2]).
  split; [exact Heq|].
  split; [now apply bloom_check_forallb|].
  rewrite forallb_forall, Forall_forall.
  pose proof (bloom_indexes_range data _ Heq) as Hrange.
  rewrite Forall_forall in Hrange.
  split; intros H k Hk.
  - apply bit_is_set_testbit; [apply Hrange in Hk; lia | now apply H].
  - apply bit_is_set_testbit; [apply Hrange in Hk; lia | now apply H].
Qed.

(** ** Building a field *)

Lemma set_bit_spec (F idx k : Z) :
  0 <= idx ->
  Z.testbit (set_bit F idx) k = Z.testbit F k || (idx =? k).
Proof.
  intros Hidx. unfold set_bit.
  rewrite Z.lor_spec, Z.shiftl_1_l, Z.pow2_bits_eqb by assumption.
  reflexivity.
Qed.

Lemma set_bits_spec (idxs : list Z) (F k : Z) :
  Forall (fun i => 0 <= i) idxs ->
  Z.testbit (fold_left set_bit idxs F) k = true <->
  Z.testbit F k = true \/ In k idxs.
Proof.
  intros Hall. revert F.
  induction Hall as [|idx rest Hidx _ IH]; intros F; cbn [fold_left In].
  - tauto.
  - rewrite IH, set_bit_spec, orb_true_iff, Z.eqb_eq by assumption.
    tauto.
Qed.

Lemma set_bit_nonneg (F idx : Z) : 0 <= F -> 0 <= set_bit F idx.
Proof.
  intros HF. unfold set_bit.
  apply Z.lor_nonneg. split; [assumption|].
  apply Z.shiftl_nonneg. lia.
Qed.

Lemma set_bits_nonneg (idxs : list Z) (F : Z) :
  0 <= F -> 0 <= fold_left set_bit idxs F.
Proof.
  revert F. induction idxs as [|idx rest IH]; intros F HF; cbn [fold_left].
  - assumption.
  - apply IH, set_bit_nonneg, HF.
Qed.

Lemma bloom_insert_spec (F : Z) (c : bytes) :
  exists idxs F',
    bloom_indexes c = Ok idxs /\
    bloom_insert F c = Ok F' /\
    (0 <= F -> 0 <= F') /\
    (forall k, Z.testbit F' k = true <-> Z.testbit F k = true \/ In k idxs).
Proof.
  destruct (bloom_indexes_total c) as (i0 & i1 & i2 & Heq & H0 & H1 & H2).
  exists [i0; i1; i2], (fold_left set_bit [i0; i1; i2] F).
  split; [exact Heq|].
  split; [unfold bloom_insert; now rewrite Heq|].
  split; [apply set_bits_nonneg|].
  intros k. apply set_bits_spec.
  repeat constructor; lia.
Qed.

Lemma bloom_insert_all_spec (cs : list bytes) (F : Z) :
  exists F',
    bloom_insert_all F cs = Ok F' /\
    (0 <= F -> 0 <= F') /\
    (forall k, Z.testbit F' k = true <->
               Z.testbit F k = true \/ derived_from cs k).
Proof.
  revert F. induction cs as [|c rest IH]; intros F; cbn [bloom_insert_all].
  - exists F. split; [reflexivity|]. split; [auto|].
    intros k. split; [auto|].
    intros [H|(c & idxs & [] & _)]. exact H.
  - destruct (bloom_insert_spec F c) as (idxs & F1 & Hidx & Hins & Hpos & Hbits).
    destruct (IH F1) as (F' & Hall & Hpos' & Hbits').
    exists F'. rewrite Hins. cbn [bind].
    split; [exact Hall|]. split; [auto|].
    intros k. rewrite Hbits', Hbits.
    split.
    + intros [[H|H]|(c' & idxs' & Hin & Heq & Hk)].
      * now left.
      * right. exists c, idxs. cbn [In]. auto.
      * right. exists c', idxs'. cbn [In]. auto.
    + intros [H|(c' & idxs' & [<-|Hin] & Heq & Hk)].
      * auto.
      * rewrite Hidx in Heq. injection Heq as <-. auto.
      * right. exists c', idxs'. auto.
Qed.

Lemma derived_from_range (cs : list bytes) (k : Z) :
  derived_from cs k -> 0 <= k < 2048.
Proof.
  intros (c & idxs & _ & Heq & Hk).
  apply bloom_indexes_range in Heq.
  rewrite Forall_forall in Heq. now apply Heq.
Qed.

Lemma low_bits_bound (F : Z) :
  0 <= F ->
  (forall k, Z.testbit F k = true -> 0 <= k < 2048) ->
  F < 2 ^ 2048.
Proof.
  intros HF Hbits.
  assert (Hmod : F mod 2 ^ 2048 = F).
  { apply Z.bits_inj'. intros k Hk.
    destruct (Z.lt_ge_cases k 2048) as [Hlow|Hhigh].
    - apply Z.mod_pow2_bits_low. lia.
    - rewrite Z.mod_pow2_bits_high by lia.
      destruct (Z.testbit F k) eqn:Hb; [apply Hbits in Hb; lia | reflexivity]. }
  rewrite <- Hmod. apply Z.mod_pos_bound. lia.
Qed.

(** C1. No false negatives: for every finite collection of candidates, the
    field built from the empty field by setting exactly the derived bits of
    each candidate is a 2048-bit field on which the membership test of every
    inserted candidate returns [true]. *)
Theorem no_false_negatives (cs : list bytes) :
  exists F,
    bloom_of cs = Ok F /\
    0 <= F < 2 ^ 2048 /\
    (forall k, Z.testbit F k = true <-> derived_from cs k) /\
    (forall c, In c cs -> bloom_check F c = Ok true).
Proof.
  destruct (bloom_insert_all_spec cs 0) as (F & Hbuild & Hpos & Hbits).
  assert (Hexact : forall k, Z.testbit F k = true <-> derived_from cs k).
  { intros k. rewrite Hbits, Z.bits_0. split; [intros [H|H]|]; auto; discriminate. }
  exists F. split; [exact Hbuild|].
  split; [|split; [exact Hexact|]].
  - split; [apply Hpos; lia|].
    apply low_bits_bound; [apply Hpos; lia|].
    intros k Hk. apply derived_from_range with (cs := cs), Hexact, Hk.
  - intros c Hin.
    destruct (bloom_indexes_total c) as (i0 & i1 & i2 & Heq & _).
    apply (bloom_check_true_iff F c _ Heq).
    intros k Hk. apply Hexact. now exists c, [i0; i1; i2].
Qed.

(** The first two scenarios of the specification, with the empty byte
    string, whose derived indices are 1490, 1537 and 1783. *)
Example all_three_bits_set :
  bloom_check (fold_left set_bit [1490; 1537; 1783] 0) [] = Ok true.
Proof. vm_compute. reflexivity. Qed.

Example one_bit_missing :
  bloom_check (fold_left set_bit [1490; 1537] 0) [] = Ok false.
Proof. vm_compute. reflexivity. Qed.

(** C5. False positives are possible: the zero address was not inserted
    into the field built from the addresses 0x..00ec, 0x..011a and 0x..011f,
    and the membership test reports it present. *)
Theorem false_positive_exists :
  exists (cs : list bytes) (F : Z) (c : bytes),
    bloom_of cs = Ok F /\ ~ In c cs /\ bloom_check F c = Ok true.
Proof.
  exists [small_address "000"%byte "236"%byte;
          small_address "001"%byte "026"%byte;
          small_address "001"%byte "031"%byte].
  exists (fold_left set_bit [44; 1368; 896; 919; 379; 1665; 1247; 2015; 1975] 0).
  exists (repeat Byte.x00 20).
  split; [vm_compute; reflexivity|].
  split; [|vm_compute; reflexivity].
  intros [H|[H|[H|[]]]]; vm_compute in H; discriminate H.
Qed.

(** ** The width of the field *)

Lemma forallb_testbit_low (F F' : Z) (idxs : list Z) :
  Forall (fun k => 0 <= k < 2048) idxs ->
  (forall k, 0 <= k < 2048 -> Z.testbit F k = Z.testbit F' k) ->
  forallb (Z.testbit F) idxs = forallb (Z.testbit F') idxs.
Proof.
  intros Hall Hsame.
  induction Hall as [|k rest Hk _ IH]; cbn [forallb]; [reflexivity|].
  now rewrite IH, (Hsame k Hk).
Qed.

Lemma bloom_check_low_bits (F F' : Z) (data : bytes) :
  (forall k, 0 <= k < 2048 -> Z.testbit F k = Z.testbit F' k) ->
  bloom_check F data = bloom_check F' data.
Proof.
  intros Hsame.
  destruct (bloom_indexes_total data) as (i0 & i1 & i2 & Heq & _).
  rewrite (bloom_check_forallb F data _ Heq), (bloom_check_forallb F' data _ Heq).
  f_equal. apply forallb_testbit_low; [|exact Hsame].
  now apply bloom_indexes_range with (data := data).
Qed.

Lemma bloom_check_returns (F : Z) (data : bytes) :
  exists b, bloom_check F data = Ok b.
Proof.
  destruct (bloom_indexes_total data) as (i0 & i1 & i2 & Heq & _).
  rewrite (bloom_check_forallb F data _ Heq). eauto.
Qed.

(** C9. Only the low 2048 bits of the field matter: the membership test
    accepts a field of any width without raising, and its result on [F] is
    its result on [F mod 2^2048]; two fields that agree on the bits 0 to
    2047 give the same result. *)
Theorem bloom_check_mod_width (F : Z) (data : bytes) :
  bloom_check F data = bloom_check (F mod 2 ^ 2048) data /\
  (exists b, bloom_check F data = Ok b) /\
  (forall F', (forall k, 0 <= k < 2048 -> Z.testbit F k = Z.testbit F' k) ->
              bloom_check F data = bloom_check F' data).
Proof.
  split; [|split].
  - apply bloom_check_low_bits. intros k Hk.
    symmetry. apply Z.mod_pow2_bits_low. lia.
  - apply bloom_check_returns.
  - intros F'. apply bloom_check_low_bits.
Qed.

(** ** Monotonicity *)

Lemma full_field_bits (k : Z) : 0 <= k < 2048 -> Z.testbit full_field k = true.
Proof.
  intros Hk. unfold full_field.
  rewrite Z.sub_1_r, <- Z.ones_equiv.
  apply Z.ones_spec_low. lia.
Qed.

Lemma bloom_check_full_field (data : bytes) :
  bloom_check full_field data = Ok true.
Proof.
  destruct (bloom_indexes_total data) as (i0 & i1 & i2 & Heq & _).
  apply (bloom_check_true_iff _ data _ Heq).
  intros k Hk. apply full_field_bits.
  pose proof (bloom_indexes_range data _ Heq) as Hr.
  rewrite Forall_forall in Hr. now apply Hr.
Qed.

(** C10. The membership test is monotone in the field: when every set bit
    of [F] is also set in [F'] ([F & F' == F]), a candidate reported present
    in [F] is reported present in [F']; the all-ones 2048-bit field reports
    every candidate present. *)
Theorem bloom_check_monotone :
  (forall (F F' : Z) (data : bytes),
      Z.land F F' = F ->
      bloom_check F data = Ok true -> bloom_check F' data = Ok true) /\
  (forall data : bytes, bloom_check full_field data = Ok true).
Proof.
  split; [|exact bloom_check_full_field].
  intros F F' data Hsub Hcheck.
  destruct (bloom_indexes_total data) as (i0 & i1 & i2 & Heq & _).
  rewrite (bloom_check_true_iff F data _ Heq) in Hcheck.
  rewrite (bloom_check_true_iff F' data _ Heq).
  intros k Hk. specialize (Hcheck k Hk).
  rewrite <- Hsub, Z.land_spec, andb_true_iff in Hcheck.
  tauto.
Qed.

Lemma bloom_check_monotone_witness :
  bloom_check (fold_left set_bit [7; 1490; 1537; 1783] 0) [] = Ok true /\
  bloom_check full_field (list_byte_of_string "abc") = Ok true.
Proof.
  split.
  - apply (proj1 bloom_check_monotone (fold_left set_bit [1490; 1537; 1783] 0)).
    + vm_compute. reflexivity.
    + vm_compute. reflexivity.
  - apply (proj2 bloom_check_monotone).
Defined.

(** C6, as the code has it. [bloom_check] does not validate the width of
    the field: on a field of more than 2048 bits it raises nothing and
    returns the boolean it returns on the low 2048 bits. *)
Theorem bloom_check_wide_field (F : Z) (data : bytes) :
  2 ^ 2048 <= F ->
  exists b,
    bloom_check F data = Ok b /\ bloom_check (F mod 2 ^ 2048) data = Ok b.
Proof.
  intros _.
  destruct (bloom_check_returns F data) as [b Hb].
  exists b. split; [exact Hb|].
  rewrite <- Hb. symmetry.
  apply bloom_check_low_bits. intros k Hk.
  symmetry. apply Z.mod_pow2_bits_low. lia.
Qed.

Lemma bloom_check_wide_field_witness :
  exists b,
    bloom_check (2 ^ 2048) [] = Ok b /\
    bloom_check (2 ^ 2048 mod 2 ^ 2048) [] = Ok b.
Proof.
  apply (bloom_check_wide_field (2 ^ 2048) []).
  apply Z.le_refl.
Defined.

(** C6 as stated fails: fields of 2049 bits are answered, with [False] and
    with [True], instead of being refused. *)
Lemma wide_field_not_refused :
  2 ^ 2048 <= 2 ^ 2048 /\
  bloom_check (2 ^ 2048) [] = Ok false /\
  2 ^ 2048 <= 2 ^ 2048 + fold_left set_bit [1490; 1537; 1783] 0 /\
  bloom_check (2 ^ 2048 + fold_left set_bit [1490; 1537; 1783] 0) [] = Ok true.
Proof.
  split; [apply Z.le_refl|].
  split; [vm_compute; reflexivity|].
  split; [vm_compute; discriminate|].
  vm_compute; reflexivity.
Qed.

(** ** [parse_hex] *)

Lemma fromhex_byte (b : Byte.byte) (rest : string) :
  fromhex (String (hex_char (Byte.to_N b / 16))
             (String (hex_char (Byte.to_N b mod 16)) rest)) =
  (bs <- fromhex rest ;; Ok (b :: bs)).
Proof. destruct b; reflexivity. Qed.

Lemma fromhex_hexlify (bs : bytes) : fromhex (hexlify bs) = Ok bs.
Proof.
  induction bs as [|b rest IH]; [reflexivity|].
  cbn [hexlify]. rewrite fromhex_byte, IH. reflexivity.
Qed.

Lemma parse_hex_prefixed (h kind : string) :
  parse_hex (String "0" (String "x" h)) kind = fromhex h.
Proof. destruct h; reflexivity. Qed.

(** C7, as the code has it. [parse_hex] checks the [0x] prefix and leaves
    the rest to [bytes.fromhex]; it does not look at the number of bytes.
    The [0x]-prefixed hexadecimal text of a byte string of any length is
    parsed to that byte string, and a text without the prefix raises
    [ValueError]. *)
Theorem parse_hex_any_length :
  (forall (bs : bytes) (kind : string),
      parse_hex (String "0" (String "x" (hexlify bs))) kind = Ok bs) /\
  (forall s kind : string,
      String.prefix "0x" s = false -> parse_hex s kind = Raise ValueError).
Proof.
  split.
  - intros bs kind. rewrite parse_hex_prefixed. apply fromhex_hexlify.
  - intros s kind Hs. unfold parse_hex. now rewrite Hs.
Qed.

Lemma parse_hex_any_length_witness :
  parse_hex "0xc0ffee" "topic0" = Ok ["192"%byte; "255"%byte; "238"%byte] /\
  parse_hex "c0ffee" "topic0" = Raise ValueError.
Proof.
  split.
  - apply (proj1 parse_hex_any_length ["192"%byte; "255"%byte; "238"%byte]).
  - apply (proj2 parse_hex_any_length). reflexivity.
Defined.

(** C7 as stated fails: a one-byte text is accepted as a topic (32 bytes
    expected) and as an address (20 bytes expected), and goes on to the
    membership test. *)
Lemma short_topic_accepted :
  parse_hex "0x00" "topic0" = Ok ["000"%byte] /\
  parse_hex "0x00" "address" = Ok ["000"%byte] /\
  List.length ["000"%byte] = 1%nat /\
  (bs <- parse_hex "0x00" "topic0" ;; bloom_check full_field bs) = Ok true.
Proof.
  split; [reflexivity|].
  split; [reflexivity|].
  split; [reflexivity|].
  vm_compute. reflexivity.
Qed.

(** Malformed hexadecimal text is refused: an odd number of digits, a
    character that is no digit, white space inside a byte. *)
Example parse_hex_malformed :
  parse_hex "0x0" "topic0" = Raise ValueError /\
  parse_hex "0xzz" "topic0" = Raise ValueError /\
  parse_hex "0x0 0" "topic0" = Raise ValueError /\
  parse_hex "0x00 ff" "topic0" = Ok ["000"%byte; "255"%byte].
Proof. repeat split. Qed.

(** ** Consistency verification *)

(** With one membership result [b], from one candidate or from two that
    agree, and a count [c >= 0], the verification step reports a soundness
    violation iff [b] is false and [c > 0], a benign false positive iff [b]
    is true and [c == 0], and nothing otherwise. *)
Lemma classification_of_one_result
    (addr_ok topic_ok : option bool) (b : bool) (c : Z) :
  tested_as addr_ok topic_ok b ->
  0 <= c ->
  let out := verify addr_ok topic_ok (Ok c) in
  (In SoundnessWarning out <-> b = false /\ c > 0) /\
  (In FalsePositiveNote out <-> b = true /\ c = 0) /\
  (out = [ExactLogsFound c] <->
   (b = true /\ c > 0) \/ (b = false /\ c = 0)).
Proof.
  intros Htested Hc out. subst out.
  unfold verify, soundness_violation, benign_false_positive.
  destruct (Z.gtb_spec c 0) as [Hpos|Hnpos];
    destruct (Z.eqb_spec c 0) as [Hz|Hnz]; try lia;
    destruct Htested as [[-> ->]|[[-> ->]|[-> ->]]];
    destruct b; cbn; unfold not;
    repeat split; intros; try lia;
    repeat match goal with
           | H : _ \/ _ |- _ => destruct H
           | H : _ /\ _ |- _ => destruct H
           | H : False |- _ => destruct H
           end;
    try discriminate; try lia; auto.
Qed.

Lemma is_False_iff (x : option bool) : is_False x = true <-> x = Some false.
Proof. destruct x as [[|]|]; cbn; split; intros H; congruence. Qed.

Lemma is_True_iff (x : option bool) : is_True x = true <-> x = Some true.
Proof. destruct x as [[|]|]; cbn; split; intros H; congruence. Qed.

Lemma soundness_violation_iff (addr_ok topic_ok : option bool) (c : Z) :
  soundness_violation addr_ok topic_ok c = true <->
  (addr_ok = Some false \/ topic_ok = Some false) /\ c > 0.
Proof.
  unfold soundness_violation.
  rewrite andb_true_iff, orb_true_iff, !is_False_iff, Z.gtb_lt, Z.gt_lt_iff.
  reflexivity.
Qed.

Lemma benign_false_positive_iff (addr_ok topic_ok : option bool) (c : Z) :
  benign_false_positive addr_ok topic_ok c = true <->
  (addr_ok = Some true \/ topic_ok = Some true) /\ c = 0.
Proof.
  unfold benign_false_positive.
  rewrite andb_true_iff, orb_true_iff, !is_True_iff, Z.eqb_eq. reflexivity.
Qed.

Lemma verify_reports (addr_ok topic_ok : option bool) (c : Z) :
  let out := verify addr_ok topic_ok (Ok c) in
  (In SoundnessWarning out <-> soundness_violation addr_ok topic_ok c = true) /\
  (In FalsePositiveNote out <->
   benign_false_positive addr_ok topic_ok c = true) /\
  (out = [ExactLogsFound c] <->
   soundness_violation addr_ok topic_ok c = false /\
   benign_false_positive addr_ok topic_ok c = false).
Proof.
  cbv zeta. unfold verify.
  destruct (soundness_violation addr_ok topic_ok c);
    destruct (benign_false_positive addr_ok topic_ok c); cbn;
    intuition congruence.
Qed.

(** C4, as the code has it. The verification step looks at the results of
    all the membership tests made, one or two, and at the count [c >= 0]:
    it reports a soundness violation iff some test returned false and
    [c > 0], a benign false positive iff some test returned true and
    [c == 0], nothing otherwise, and never both.  When there is one result
    [b], from one candidate or from two that agree, this is the table of
    the specification: a violation iff [b] is false and [c > 0], a benign
    false positive iff [b] is true and [c == 0]. *)
Theorem verify_classification (addr_ok topic_ok : option bool) (c : Z) :
  0 <= c ->
  let out := verify addr_ok topic_ok (Ok c) in
  let some_absent := addr_ok = Some false \/ topic_ok = Some false in
  let some_present := addr_ok = Some true \/ topic_ok = Some true in
  (In SoundnessWarning out <-> some_absent /\ c > 0) /\
  (In FalsePositiveNote out <-> some_present /\ c = 0) /\
  (out = [ExactLogsFound c] <->
   ~ (some_absent /\ c > 0) /\ ~ (some_present /\ c = 0)) /\
  ~ (In SoundnessWarning out /\ In FalsePositiveNote out) /\
  (forall b : bool,
      tested_as addr_ok topic_ok b ->
      (In SoundnessWarning out <-> b = false /\ c > 0) /\
      (In FalsePositiveNote out <-> b = true /\ c = 0) /\
      (out = [ExactLogsFound c] <->
       (b = true /\ c > 0) \/ (b = false /\ c = 0))).
Proof.
  intros Hc out some_absent some_present.
  destruct (verify_reports addr_ok topic_ok c) as (Hwarn & Hnote & Hnone).
  fold out in Hwarn, Hnote, Hnone.
  rewrite soundness_violation_iff in Hwarn.
  rewrite benign_false_positive_iff in Hnote.
  rewrite <- !not_true_iff_false, soundness_violation_iff,
    benign_false_positive_iff in Hnone.
  fold some_absent in Hwarn, Hnone. fold some_present in Hnote, Hnone.
  split; [exact Hwarn|]. split; [exact Hnote|]. split; [exact Hnone|].
  split; [rewrite Hwarn, Hnote; intros [[_ Hpos] [_ Hz]]; lia|].
  intros b Htested.
  exact (classification_of_one_result addr_ok topic_ok b c Htested Hc).
Qed.

Lemma verify_classification_witness :
  let out := verify (Some true) (Some false) (Ok 3) in
  let some_absent := Some true = Some false \/ Some false = Some false in
  let some_present := Some true = Some true \/ Some false = Some true in
  (In SoundnessWarning out <-> some_absent /\ 3 > 0) /\
  (In FalsePositiveNote out <-> some_present /\ 3 = 0) /\
  (out = [ExactLogsFound 3] <->
   ~ (some_absent /\ 3 > 0) /\ ~ (some_present /\ 3 = 0)) /\
  ~ (In SoundnessWarning out /\ In FalsePositiveNote out) /\
  (forall b : bool,
      tested_as (Some true) (Some false) b ->
      (In SoundnessWarning out <-> b = false /\ 3 > 0) /\
      (In FalsePositiveNote out <-> b = true /\ 3 = 0) /\
      (out = [ExactLogsFound 3] <->
       (b = true /\ 3 > 0) \/ (b = false /\ 3 = 0))).
Proof.
  apply (verify_classification (Some true) (Some false) 3).
  lia.
Defined.

(** C4 as stated fails when both candidates are tested and the results
    differ.  With the address present and the topic absent, three logs give
    a soundness warning although the address result is true, and no log
    gives the false-positive note although the topic result is false. *)
Lemma disagreeing_tests_break_table :
  verify (Some true) (Some false) (Ok 3)
  = [ExactLogsFound 3; SoundnessWarning] /\
  verify (Some true) (Some false) (Ok 0)
  = [ExactLogsFound 0; FalsePositiveNote] /\
  ~ (In SoundnessWarning (verify (Some true) (Some false) (Ok 3)) <->
     true = false /\ 3 > 0) /\
  ~ (In FalsePositiveNote (verify (Some true) (Some false) (Ok 0)) <->
     false = true /\ 0 = 0).
Proof.
  split; [reflexivity|]. split; [reflexivity|].
  split; intros [H _].
  - assert (Hin : In SoundnessWarning (verify (Some true) (Some false) (Ok 3)))
      by (cbn; auto).
    apply H in Hin. destruct Hin as [Hin _]. discriminate Hin.
  - assert (Hin : In FalsePositiveNote (verify (Some true) (Some false) (Ok 0)))
      by (cbn; auto).
    apply H in Hin. destruct Hin as [Hin _]. discriminate Hin.
Qed.

(** Scenarios 3 and 4 of the specification. *)
Example absent_with_three_logs :
  verify None (Some false) (Ok 3) = [ExactLogsFound 3; SoundnessWarning].
Proof. reflexivity. Qed.

Example present_with_no_log :
  verify (Some true) None (Ok 0) = [ExactLogsFound 0; FalsePositiveNote].
Proof. reflexivity. Qed.

(** When both candidates were tested and the two results differ, the count
    alone decides which of the two notes is printed. *)
Remark mixed_results (c : Z) :
  0 <= c ->
  verify (Some true) (Some false) (Ok c) =
  ExactLogsFound c :: (if c =? 0 then [FalsePositiveNote] else [SoundnessWarning]).
Proof.
  intros Hc. unfold verify, soundness_violation, benign_false_positive.
  destruct (Z.gtb_spec c 0); destruct (Z.eqb_spec c 0); try lia; reflexivity.
Qed.

(** * Further properties of the bloom functions *)

Lemma testbit_zero_false (k : Z) : Z.testbit 0 k = false.
Proof. apply Z.bits_0. Qed.

(** X1. The empty field reports every candidate absent: a block without
    logs never passes the membership test. *)
Theorem bloom_check_empty_field (data : bytes) : bloom_check 0 data = Ok false.
Proof.
  destruct (bloom_indexes_total data) as (i0 & i1 & i2 & Heq & _).
  rewrite (bloom_check_forallb 0 data _ Heq).
  cbn [forallb]. now rewrite testbit_zero_false.
Qed.

(** X2. A candidate is reported present in the intersection [F & G] of two
    fields exactly when it is reported present in both. *)
Theorem bloom_check_land (F G : Z) (data : bytes) :
  bloom_check (Z.land F G) data = Ok true <->
  bloom_check F data = Ok true /\ bloom_check G data = Ok true.
Proof.
  destruct (bloom_indexes_total data) as (i0 & i1 & i2 & Heq & _).
  rewrite !(bloom_check_true_iff _ data _ Heq).
  split.
  - intros H. split; intros k Hk; specialize (H k Hk);
      rewrite Z.land_spec, andb_true_iff in H; tauto.
  - intros [HF HG] k Hk.
    rewrite Z.land_spec, (HF k Hk), (HG k Hk). reflexivity.
Qed.

(** X3. A candidate reported present in one of two fields is reported
    present in their union [F | G]. *)
Theorem bloom_check_lor (F G : Z) (data : bytes) :
  bloom_check F data = Ok true \/ bloom_check G data = Ok true ->
  bloom_check (Z.lor F G) data = Ok true.
Proof.
  destruct (bloom_indexes_total data) as (i0 & i1 & i2 & Heq & _).
  rewrite !(bloom_check_true_iff _ data _ Heq).
  intros [H|H] k Hk; rewrite Z.lor_spec, (H k Hk).
  - reflexivity.
  - apply orb_true_r.
Qed.

Lemma bloom_check_lor_witness :
  bloom_check (Z.lor (fold_left set_bit [1490; 1537; 1783] 0) 5) [] = Ok true.
Proof.
  apply (bloom_check_lor (fold_left set_bit [1490; 1537; 1783] 0) 5 []).
  left. vm_compute. reflexivity.
Defined.

Lemma shift_or_is_sum (x b : Z) :
  0 <= b < 256 -> Z.lor (Z.shiftl x 8) b = x * 256 + b.
Proof.
  intros Hb.
  assert (Hdisj : Z.land (Z.shiftl x 8) b = 0).
  { apply Z.bits_inj'. intros k Hk.
    rewrite Z.land_spec, Z.bits_0.
    destruct (Z.lt_ge_cases k 8) as [Hlow|Hhigh].
    - rewrite Z.shiftl_spec_low by lia. reflexivity.
    - replace b with (b mod 2 ^ 8) by (apply Z.mod_small; lia).
      rewrite Z.mod_pow2_bits_high by lia. apply andb_false_r. }
  rewrite <- Z.lxor_lor, <- Z.add_nocarry_lxor by assumption.
  rewrite Z.shiftl_mul_pow2 by lia. reflexivity.
Qed.

Lemma fold16_arith (hi lo : Byte.byte) :
  fold16 hi lo = (byte_value hi mod 8) * 256 + byte_value lo.
Proof.
  unfold fold16.
  pose proof (byte_value_range hi) as Hhi.
  pose proof (byte_value_range lo) as Hlo.
  rewrite shift_or_is_sum by assumption.
  pose proof (Z.mod_pos_bound (byte_value hi) 8 ltac:(lia)) as Hr.
  symmetry. apply Z.mod_unique with (q := byte_value hi / 8); [lia|].
  pose proof (Z.div_mod (byte_value hi) 8 ltac:(lia)). lia.
Qed.

(** X4. Of the 32 digest bytes only 33 bits are used: index [i] is
    [(h[2*i] mod 8) * 256 + h[2*i+1]], the low three bits of an even byte
    followed by the whole of the next byte. *)
Theorem bloom_indexes_arith (data : bytes) :
  exists b0 b1 b2 b3 b4 b5 rest,
    keccak256 data = b0 :: b1 :: b2 :: b3 :: b4 :: b5 :: rest /\
    bloom_indexes data =
    Ok [(byte_value b0 mod 8) * 256 + byte_value b1;
        (byte_value b2 mod 8) * 256 + byte_value b3;
        (byte_value b4 mod 8) * 256 + byte_value b5].
Proof.
  destruct (digest_prefix data) as (b0 & b1 & b2 & b3 & b4 & b5 & rest & Hh).
  exists b0, b1, b2, b3, b4, b5, rest.
  split; [exact Hh|].
  rewrite (bloom_indexes_of_prefix data _ _ _ _ _ _ _ Hh), !fold16_arith.
  reflexivity.
Qed.

(** * [int.from_bytes] *)

Lemma int_from_bytes_big_snoc (bs : bytes) (b : Byte.byte) :
  int_from_bytes_big (bs ++ [b]) = int_from_bytes_big bs * 256 + byte_value b.
Proof. unfold int_from_bytes_big. rewrite fold_left_app. reflexivity. Qed.

(** X5. The integer read from [n] bytes is non-negative and below
    [2^(8n)]: a 256-byte [logsBloom] gives a field of at most 2048 bits. *)
Theorem int_from_bytes_big_range (bs : bytes) :
  0 <= int_from_bytes_big bs < 2 ^ (8 * Z.of_nat (List.length bs)).
Proof.
  induction bs as [|b bs IH] using rev_ind.
  - cbn. lia.
  - rewrite int_from_bytes_big_snoc, length_app. cbn [List.length].
    pose proof (byte_value_range b) as Hb.
    replace (8 * Z.of_nat (List.length bs + 1))
      with (8 * Z.of_nat (List.length bs) + 8) by lia.
    rewrite Z.pow_add_r by lia.
    change (2 ^ 8) with 256. lia.
Qed.

Lemma header_bit_snoc_low (bs : bytes) (b : Byte.byte) (k : Z) :
  0 <= k < 8 -> header_bit (bs ++ [b]) k = Z.testbit (byte_value b) k.
Proof.
  intros Hk. unfold header_bit.
  rewrite Z.div_small, Z.mod_small by lia.
  rewrite length_app. cbn [List.length Z.to_nat].
  replace (List.length bs + 1 - 1 - 0)%nat with (List.length bs) by lia.
  rewrite nth_middle. reflexivity.
Qed.

Lemma header_bit_snoc_high (bs : bytes) (b : Byte.byte) (k : Z) :
  8 <= k < 8 * Z.of_nat (List.length bs) + 8 ->
  header_bit (bs ++ [b]) k = header_bit bs (k - 8).
Proof.
  intros Hk. unfold header_bit.
  replace k with ((k - 8) + 1 * 8) at 1 2 by lia.
  rewrite Z.div_add, Z.mod_add by lia.
  assert (Hq : 0 <= (k - 8) / 8 < Z.of_nat (List.length bs)).
  { split; [apply Z.div_pos; lia|apply Z.div_lt_upper_bound; lia]. }
  rewrite length_app. cbn [List.length].
  replace (List.length bs + 1 - 1 - Z.to_nat ((k - 8) / 8 + 1))%nat
    with (List.length bs - 1 - Z.to_nat ((k - 8) / 8))%nat by lia.
  rewrite app_nth1 by lia. reflexivity.
Qed.

Lemma testbit_int_from_bytes_big (bs : bytes) (k : Z) :
  0 <= k < 8 * Z.of_nat (List.length bs) ->
  Z.testbit (int_from_bytes_big bs) k = header_bit bs k.
Proof.
  revert k. induction bs as [|b bs IH] using rev_ind; intros k Hk.
  - cbn in Hk. lia.
  - rewrite length_app in Hk. cbn [List.length] in Hk.
    rewrite int_from_bytes_big_snoc.
    rewrite <- shift_or_is_sum by apply byte_value_range.
    rewrite Z.lor_spec.
    destruct (Z.lt_ge_cases k 8) as [Hlow|Hhigh].
    + rewrite Z.shiftl_spec_low, header_bit_snoc_low by lia. reflexivity.
    + rewrite Z.shiftl_spec, header_bit_snoc_high, IH by lia.
      replace (byte_value b) with (byte_value b mod 2 ^ 8)
        by (apply Z.mod_small; apply byte_value_range).
      rewrite Z.mod_pow2_bits_high by lia. apply orb_false_r.
Qed.

(** X6. Bit [k] of the integer read from a header is bit [k mod 8] of the
    byte [k / 8] places before the last: bit 0 is the lowest bit of the
    last byte. *)
Theorem int_from_bytes_big_bits (bs : bytes) (k : Z) :
  0 <= k < 8 * Z.of_nat (List.length bs) ->
  Z.testbit (int_from_bytes_big bs) k = header_bit bs k.
Proof. apply testbit_int_from_bytes_big. Qed.

Lemma int_from_bytes_big_bits_witness :
  Z.testbit (int_from_bytes_big ["001"%byte; "000"%byte]) 8 =
  header_bit ["001"%byte; "000"%byte] 8.
Proof.
  apply (int_from_bytes_big_bits ["001"%byte; "000"%byte] 8).
  cbn. lia.
Defined.

(** X7. On the field read from a 256-byte [logsBloom], the membership test
    returns [True] exactly when, for each derived index, bit [idx mod 8] of
    header byte [255 - idx / 8] is set. *)
Theorem bloom_check_header_bytes (bs data : bytes) (idxs : list Z) :
  List.length bs = 256%nat ->
  bloom_indexes data = Ok idxs ->
  bloom_check (int_from_bytes_big bs) data = Ok true <->
  (forall idx, In idx idxs -> header_bit bs idx = true).
Proof.
  intros Hlen Hidx.
  rewrite (bloom_check_true_iff _ data _ Hidx).
  pose proof (bloom_indexes_range data _ Hidx) as Hrange.
  rewrite Forall_forall in Hrange.
  split; intros H idx Hin; specialize (H idx Hin);
    specialize (Hrange idx Hin).
  - rewrite <- testbit_int_from_bytes_big by (rewrite Hlen; lia). exact H.
  - rewrite testbit_int_from_bytes_big by (rewrite Hlen; lia). exact H.
Qed.

Lemma bloom_check_header_bytes_witness :
  bloom_check (int_from_bytes_big (repeat "255"%byte 256)) [] = Ok true <->
  (forall idx, In idx [1490; 1537; 1783] ->
               header_bit (repeat "255"%byte 256) idx = true).
Proof.
  apply (bloom_check_header_bytes (repeat "255"%byte 256) [] [1490; 1537; 1783]).
  - reflexivity.
  - vm_compute. reflexivity.
Defined.

(** X8. Header fields of the same length are equal as integers only when
    they are equal byte for byte. *)
Theorem int_from_bytes_big_inj (bs bs' : bytes) :
  List.length bs = List.length bs' ->
  int_from_bytes_big bs = int_from_bytes_big bs' ->
  bs = bs'.
Proof.
  revert bs'. induction bs as [|b bs IH] using rev_ind; intros bs' Hlen Heq.
  - destruct bs'; [reflexivity|discriminate Hlen].
  - destruct bs' as [|b' bs' _] using rev_ind.
    + rewrite length_app in Hlen. cbn in Hlen. lia.
    + rewrite !length_app in Hlen. cbn [List.length] in Hlen.
      rewrite !int_from_bytes_big_snoc in Heq.
      pose proof (byte_value_range b) as Hb.
      pose proof (byte_value_range b') as Hb'.
      assert (Hhi : int_from_bytes_big bs = int_from_bytes_big bs') by lia.
      assert (Hlo : byte_value b = byte_value b') by lia.
      rewrite (IH bs') by (assumption || lia).
      f_equal. f_equal.
      unfold byte_value in Hlo. apply N2Z.inj in Hlo.
      pose proof (Byte.of_to_N b) as Hof. rewrite Hlo, Byte.of_to_N in Hof.
      now injection Hof.
Qed.

Lemma int_from_bytes_big_inj_witness :
  ["001"%byte; "002"%byte] = ["001"%byte; "002"%byte].
Proof.
  apply (int_from_bytes_big_inj ["001"%byte; "002"%byte]); reflexivity.
Defined.

(** * Further properties of [parse_hex] *)

Lemma string_pair_ind (P : string -> Prop) :
  P EmptyString ->
  (forall c, P (String c EmptyString)) ->
  (forall c c' s, P s -> P (String c' s) -> P (String c (String c' s))) ->
  forall s, P s.
Proof.
  intros Hnil Hone Hstep s.
  assert (Hboth : P s /\ forall c, P (String c s)).
  { induction s as [|c' s [IH1 IH2]].
    - split; [exact Hnil|exact Hone].
    - split; [apply IH2|]. intros c. apply Hstep; [exact IH1|apply IH2]. }
  exact (proj1 Hboth).
Qed.

Lemma hex_digit_facts (c : ascii) (n : N) :
  hex_digit c = Some n ->
  (n < 16)%N /\ hex_char n = lower c /\ is_space c = false.
Proof.
  destruct c as [[] [] [] [] [] [] [] []]; vm_compute;
    intros H; try discriminate H; injection H as <-; repeat split.
Qed.

Lemma lower_keeps_class (c : ascii) :
  is_space (lower c) = is_space c /\ hex_digit (lower c) = hex_digit c.
Proof. destruct c as [[] [] [] [] [] [] [] []]; vm_compute; split; reflexivity. Qed.

Lemma byte_of_N_value (n : N) : (n < 256)%N -> Byte.to_N (Keccak.byte_of_N n) = n.
Proof.
  intros Hn. unfold Keccak.byte_of_N.
  rewrite N.mod_small by assumption.
  destruct (Byte.of_N n) as [b|] eqn:Hof.
  - now apply Byte.to_of_N.
  - apply Byte.of_N_None_iff in Hof. lia.
Qed.

Lemma hexlify_pair (top bot : N) (rest : bytes) :
  (top < 16)%N -> (bot < 16)%N ->
  hexlify (Keccak.byte_of_N (16 * top + bot) :: rest) =
  String (hex_char top) (String (hex_char bot) (hexlify rest)).
Proof.
  intros Htop Hbot. cbn [hexlify].
  rewrite byte_of_N_value by lia.
  replace ((16 * top + bot) / 16)%N with top
    by (apply N.div_unique with (r := bot); lia).
  replace ((16 * top + bot) mod 16)%N with bot
    by (apply N.mod_unique with (q := top); lia).
  reflexivity.
Qed.

Lemma fromhex_two (c c' : ascii) (s : string) :
  fromhex (String c (String c' s)) =
  if is_space c then fromhex (String c' s)
  else match hex_digit c with
       | Some top =>
           match hex_digit c' with
           | Some bot =>
               bs <- fromhex s ;;
               Ok (Keccak.byte_of_N (16 * top + bot) :: bs)
           | None => Raise ValueError
           end
       | None => Raise ValueError
       end.
Proof. reflexivity. Qed.

Lemma fromhex_squash (s : string) :
  forall bs, fromhex s = Ok bs -> hexlify bs = squash s.
Proof.
  induction s as [|c|c c' s IH IH'] using string_pair_ind; intros bs.
  - intros [= <-]. reflexivity.
  - cbn [fromhex squash]. destruct (is_space c).
    + intros [= <-]. reflexivity.
    + destruct (hex_digit c); discriminate.
  - rewrite fromhex_two.
    cbn [squash]. destruct (is_space c) eqn:Hsp.
    + intros H. apply IH' in H. exact H.
    + destruct (hex_digit c) as [top|] eqn:Hc; [|discriminate].
      destruct (hex_digit c') as [bot|] eqn:Hc'; [|discriminate].
      destruct (fromhex s) as [bs'|e] eqn:Hs; [|discriminate].
      cbn [bind]. intros [= <-].
      destruct (hex_digit_facts c top Hc) as (Htop & Hlc & _).
      destruct (hex_digit_facts c' bot Hc') as (Hbot & Hlc' & Hsp').
      change (hexlify (Keccak.byte_of_N (16 * top + bot) :: bs') =
              String (lower c)
                (if is_space c' then squash s
                 else String (lower c') (squash s))).
      rewrite Hsp', hexlify_pair, Hlc, Hlc', (IH bs') by auto.
      reflexivity.
Qed.

Lemma fromhex_raises_ValueError (s : string) :
  forall e, fromhex s = Raise e -> e = ValueError.
Proof.
  induction s as [|c|c c' s IH IH'] using string_pair_ind; intros e.
  - discriminate.
  - cbn [fromhex]. destruct (is_space c); [discriminate|].
    destruct (hex_digit c); intros [= <-]; reflexivity.
  - rewrite fromhex_two. destruct (is_space c); [apply IH'|].
    destruct (hex_digit c); [|intros [= <-]; reflexivity].
    destruct (hex_digit c'); [|intros [= <-]; reflexivity].
    destruct (fromhex s) as [bs'|e'] eqn:Hs; [discriminate|].
    cbn [bind]. intros [= <-]. now apply IH.
Qed.

Lemma hexlify_length (bs : bytes) :
  String.length (hexlify bs) = (2 * List.length bs)%nat.
Proof.
  induction bs as [|b bs IH]; [reflexivity|].
  cbn [hexlify String.length List.length]. rewrite IH. lia.
Qed.

(** X9. What [parse_hex] decodes is what was written: when it returns
    bytes, the text starts with [0x] and the lower-case hexadecimal text of
    the bytes is the rest of the input in lower case with its white space
    removed. *)
Theorem parse_hex_decodes (s kind : string) (bs : bytes) :
  parse_hex s kind = Ok bs ->
  String.prefix "0x" s = true /\ hexlify bs = squash (drop2 s).
Proof.
  unfold parse_hex.
  destruct (String.prefix "0x" s); cbn [negb]; [|discriminate].
  intros H. split; [reflexivity|]. now apply fromhex_squash.
Qed.

Lemma parse_hex_decodes_witness :
  String.prefix "0x" "0xC0 ffEE" = true /\
  hexlify ["192"%byte; "255"%byte; "238"%byte] = squash (drop2 "0xC0 ffEE").
Proof.
  apply (parse_hex_decodes "0xC0 ffEE" "topic0").
  reflexivity.
Defined.

(** X10. A text with an odd number of characters other than white space
    after its first two is refused with [ValueError]: no half byte is ever
    dropped or padded. *)
Theorem parse_hex_odd_refused (s kind : string) :
  Nat.odd (String.length (squash (drop2 s))) = true ->
  parse_hex s kind = Raise ValueError.
Proof.
  intros Hodd.
  destruct (parse_hex s kind) as [bs|e] eqn:Hp.
  - unfold parse_hex in Hp.
    destruct (String.prefix "0x" s); cbn [negb] in Hp; [|discriminate Hp].
    apply fromhex_squash in Hp.
    rewrite <- Hp, hexlify_length, Nat.odd_mul in Hodd. discriminate Hodd.
  - f_equal. unfold parse_hex in Hp.
    destruct (String.prefix "0x" s); cbn [negb] in Hp.
    + now apply fromhex_raises_ValueError with (s := drop2 s).
    + now injection Hp.
Qed.

Lemma parse_hex_odd_refused_witness :
  parse_hex "0xabc" "topic0" = Raise ValueError.
Proof.
  apply (parse_hex_odd_refused "0xabc" "topic0").
  reflexivity.
Defined.

Lemma fromhex_lower_text (s : string) : fromhex (lower_text s) = fromhex s.
Proof.
  induction s as [|c|c c' s IH IH'] using string_pair_ind.
  - reflexivity.
  - cbn [lower_text fromhex].
    destruct (lower_keeps_class c) as [-> ->]. reflexivity.
  - cbn [lower_text] in *. rewrite !fromhex_two.
    destruct (lower_keeps_class c) as [Hsp Hhex].
    destruct (lower_keeps_class c') as [_ Hhex'].
    rewrite Hsp, Hhex, Hhex', IH.
    destruct (is_space c); [exact IH'|reflexivity].
Qed.

(** X11. The hexadecimal digits are read without regard to case: after the
    [0x] prefix, a text and its lower-case form parse to the same result. *)
Theorem parse_hex_ignores_case (h kind : string) :
  parse_hex (String "0" (String "x" (lower_text h))) kind =
  parse_hex (String "0" (String "x" h)) kind.
Proof.
  rewrite !parse_hex_prefixed. apply fromhex_lower_text.
Qed.

(** * [network_name] *)

Lemma append_cancel_r (s1 s2 t : string) :
  String.length t = 1%nat -> (s1 ++ t = s2 ++ t)%string -> s1 = s2.
Proof.
  intros Ht. destruct t as [|c [|c' t]]; try discriminate Ht. clear Ht.
  revert s2. induction s1 as [|a s1 IH]; intros [|b s2] H; cbn in H.
  - reflexivity.
  - injection H as _ H. destruct s2; discriminate H.
  - injection H as _ H. destruct s1; discriminate H.
  - injection H as -> H. f_equal. now apply IH.
Qed.

Lemma str_of_int_inj (n m : Z) : str_of_int n = str_of_int m -> n = m.
Proof.
  unfold str_of_int. intros H.
  assert (Hnil : forall z, Z.to_int z <> Decimal.Pos Decimal.Nil /\
                           Z.to_int z <> Decimal.Neg Decimal.Nil).
  { intros [|p|p]; cbn; split; try discriminate;
      intros [= Hp]; now apply DecimalPos.Unsigned.to_uint_nonnil in Hp. }
  assert (Hint : Z.to_int n = Z.to_int m).
  { destruct (Hnil n) as [Hn1 Hn2]. destruct (Hnil m) as [Hm1 Hm2].
    pose proof (NilZero.isi (Z.to_int n) Hn1 Hn2) as Hn.
    pose proof (NilZero.isi (Z.to_int m) Hm1 Hm2) as Hm.
    rewrite H in Hn. rewrite Hn in Hm. now injection Hm. }
  rewrite <- (DecimalZ.of_to n), <- (DecimalZ.of_to m), Hint. reflexivity.
Qed.

Lemma network_name_cases (cid : Z) :
  (In cid [1; 11155111; 10; 137; 42161] /\
   In (cid, network_name cid) NETWORKS) \/
  (~ In cid [1; 11155111; 10; 137; 42161] /\
   network_name cid = ("Unknown (chain ID " ++ str_of_int cid ++ ")")%string).
Proof.
  unfold network_name, NETWORKS. cbn [dict_get In].
  repeat match goal with
         | |- context [?a =? ?b] =>
             destruct (Z.eqb_spec a b) as [->|?]; [left; split; auto 10|]
         end.
  right. split; [|reflexivity]. intros H. repeat destruct H as [H|H]; auto.
Qed.

(** X12. Different chain ids are never shown under the same name: the five
    known networks have distinct names, an unknown id is shown with its
    decimal value, and no known name reads as an unknown one. *)
Theorem network_name_inj (cid cid' : Z) :
  network_name cid = network_name cid' -> cid = cid'.
Proof.
  intros Heq.
  destruct (network_name_cases cid) as [[Hin Hn]|[Hout Hn]];
    destruct (network_name_cases cid') as [[Hin' Hn']|[Hout' Hn']].
  - rewrite <- Heq in Hn'. unfold NETWORKS in Hn, Hn'.
    cbn [In] in Hn, Hn'.
    repeat match goal with
           | H : _ \/ _ |- _ => destruct H
           | H : False |- _ => destruct H
           | H : (_, _) = (_, _) |- _ => injection H as ? ?; subst
           end; try reflexivity; try discriminate; congruence.
  - rewrite Heq, Hn' in Hn. unfold NETWORKS in Hn. cbn [In] in Hn.
    repeat match goal with
           | H : _ \/ _ |- _ => destruct H
           | H : False |- _ => destruct H
           end; discriminate.
  - rewrite <- Heq, Hn in Hn'. unfold NETWORKS in Hn'. cbn [In] in Hn'.
    repeat match goal with
           | H : _ \/ _ |- _ => destruct H
           | H : False |- _ => destruct H
           end; discriminate.
  - rewrite Hn, Hn' in Heq. cbn in Heq.
    repeat match type of Heq with
           | String _ _ = String _ _ => injection Heq as Heq
           end.
    apply append_cancel_r in Heq; [|reflexivity].
    now apply str_of_int_inj.
Qed.

Lemma network_name_inj_witness : 10 = 10.
Proof.
  apply (network_name_inj 10 10). reflexivity.
Defined.

(** * [main] *)

Ltac run_simpl :=
  cbv beta iota zeta
      delta [and_then print ret call sys_exit try_except parse_args
             fst snd app negb bind says_present].

Ltac main_step tty :=
  match goal with
  | |- context [truthy ?x] => destruct (truthy x) eqn:?
  | |- context [is_connected ?w] => destruct (is_connected w) eqn:?
  | |- context [chain_id ?w ?n] => destruct (chain_id w n) eqn:?
  | |- context [get_block ?w ?b] => destruct (get_block w b) eqn:?
  | |- context [logsBloom ?h] => destruct (logsBloom h) eqn:?
  | |- context [to_checksum_address ?w ?s] =>
      destruct (to_checksum_address w s) eqn:?
  | |- context [fromhex ?s] => destruct (fromhex s) eqn:?
  | |- context [parse_hex ?s ?k] => destruct (parse_hex s k) eqn:?
  | |- context [bloom_check ?F ?d] =>
      let b := fresh "b" in
      let Hb := fresh "Hb" in
      destruct (bloom_check_returns F d) as [b Hb]; rewrite Hb
  | |- context [verify_flag ?a] => destruct (verify_flag a) eqn:?
  | |- context [fetch_logs_count ?w ?b ?x ?y] =>
      destruct (fetch_logs_count w b x y) eqn:?
  | |- context [soundness_violation ?x ?y ?c] =>
      destruct (soundness_violation x y c) eqn:?
  | |- context [benign_false_positive ?x ?y ?c] =>
      destruct (benign_false_positive x y c) eqn:?
  | |- context [tty ?out ?l] => destruct (tty out l) eqn:?
  end.

Ltac main_run tty :=
  unfold main, connect, address_bytes;
  repeat first [progress run_simpl | main_step tty].

Ltac main_cases tty cmd := destruct cmd; main_run tty.

Ltac in_cases H :=
  repeat match type of H with
         | _ \/ _ => destruct H as [H|H]
         | False => destruct H
         end.

Lemma fetch_logs_count_ok {log : Type} (w3 : node log) (block_number : Z)
    (address topic0 : option string) (count : Z) :
  fetch_logs_count w3 block_number address topic0 = Ok count ->
  exists query logs,
    log_params w3 block_number address topic0 = Ok query /\
    get_logs w3 query = Ok logs /\
    count = Z.of_nat (List.length logs).
Proof.
  unfold fetch_logs_count.
  destruct (log_params w3 block_number address topic0) as [q|e];
    cbn [bind]; [|discriminate].
  destruct (get_logs w3 q) as [logs|e] eqn:Hlogs; cbn [bind]; [|discriminate].
  intros [= <-]. now exists q, logs.
Qed.

Lemma warning_cause {log : Type} (tty : console)
    (endpoints : string -> node log) (cmd : cmdline) :
  In (Report SoundnessWarning) (fst (main tty endpoints cmd [])) ->
  exists a header bloom_bytes count,
    cmd = Parsed a /\
    verify_flag a = true /\
    get_block (endpoints (rpc a)) (block a) = Ok header /\
    logsBloom header = Ok bloom_bytes /\
    fetch_logs_count (endpoints (rpc a)) (block a) (address a) (topic0 a)
    = Ok count /\
    count > 0 /\
    some_test_failed (endpoints (rpc a)) bloom_bytes a.
Proof.
  unfold some_test_failed. main_cases tty cmd.
  all: cbn [In]; intros Hprinted; in_cases Hprinted; try discriminate Hprinted.
  all: match goal with
       | H : soundness_violation _ _ _ = true |- _ =>
           apply soundness_violation_iff in H; destruct H as [Hwho Hpos]
       end.
  all: do 4 eexists; split; [reflexivity|].
  all: split; [eassumption|]; split; [eassumption|]; split; [eassumption|].
  all: split; [eassumption|]; split; [exact Hpos|].
  all: destruct Hwho as [Hwho|Hwho]; try discriminate Hwho;
    injection Hwho as ->.
  all: first
    [ left; do 2 eexists; split; [eassumption|];
      split;
      [ repeat match goal with
               | H : ?x = _ |- context [?x] => rewrite H; cbn [bind]
               end; reflexivity
      | eassumption ]
    | right; do 2 eexists; split; [eassumption|];
      split; eassumption ].
Qed.

(** X15. [main] prints the soundness warning only with [--verify], when the
    node returned at least one log for the block and the membership test of
    one of the decoded candidates on the header's field returned [False]. *)
Theorem main_warning_justified {log : Type} (tty : console)
    (endpoints : string -> node log) (cmd : cmdline) :
  In (Report SoundnessWarning) (fst (main tty endpoints cmd [])) ->
  exists a header bloom_bytes count,
    cmd = Parsed a /\
    verify_flag a = true /\
    get_block (endpoints (rpc a)) (block a) = Ok header /\
    logsBloom header = Ok bloom_bytes /\
    fetch_logs_count (endpoints (rpc a)) (block a) (address a) (topic0 a)
    = Ok count /\
    count > 0 /\
    some_test_failed (endpoints (rpc a)) bloom_bytes a.
Proof. apply warning_cause. Qed.

Lemma main_warning_justified_witness :
  exists a header bloom_bytes count,
    Parsed (Args 5 None (Some "0x"%string) "rpc" true) = Parsed a /\
    verify_flag a = true /\
    get_block (Node true (fun _ => Ok 1)
                    (fun _ => Ok (Header (Ok (repeat "000"%byte 256))))
                    (fun _ => Ok [tt; tt]) (fun s => Ok s))
              (block a) = Ok header /\
    logsBloom header = Ok bloom_bytes /\
    fetch_logs_count
      (Node true (fun _ => Ok 1)
            (fun _ => Ok (Header (Ok (repeat "000"%byte 256))))
            (fun _ => Ok [tt; tt]) (fun s => Ok s))
      (block a) (address a) (topic0 a) = Ok count /\
    count > 0 /\
    some_test_failed
      (Node true (fun _ => Ok 1)
            (fun _ => Ok (Header (Ok (repeat "000"%byte 256))))
            (fun _ => Ok [tt; tt]) (fun s => Ok s))
      bloom_bytes a.
Proof.
  apply (main_warning_justified quiet_console
           (fun _ : string =>
              Node true (fun _ => Ok 1)
                   (fun _ => Ok (Header (Ok (repeat "000"%byte 256))))
                   (fun _ => Ok [tt; tt]) (fun s => Ok s))
           (Parsed (Args 5 None (Some "0x"%string) "rpc" true))).
  vm_compute. auto 10.
Defined.

Lemma bloom_of_member (cs : list bytes) (B : Z) (c : bytes) :
  bloom_of cs = Ok B -> In c cs -> bloom_check B c = Ok true.
Proof.
  intros Hbuilt Hin. unfold bloom_of in Hbuilt.
  destruct (bloom_insert_all_spec cs 0) as (B' & Hbuild & _ & Hbits).
  rewrite Hbuilt in Hbuild. injection Hbuild as <-.
  destruct (bloom_indexes_total c) as (i0 & i1 & i2 & Heq & _).
  apply (bloom_check_true_iff B c _ Heq).
  intros k Hk. apply Hbits. right. now exists c, [i0; i1; i2].
Qed.

Lemma bloom_check_subfield (B F : Z) (data : bytes) :
  Z.land B F = B ->
  bloom_check B data = Ok true -> bloom_check F data = Ok true.
Proof.
  intros Hsub Hcheck.
  destruct (bloom_indexes_total data) as (i0 & i1 & i2 & Heq & _).
  rewrite (bloom_check_true_iff B data _ Heq) in Hcheck.
  rewrite (bloom_check_true_iff F data _ Heq).
  intros k Hk. specialize (Hcheck k Hk).
  rewrite <- Hsub, Z.land_spec, andb_true_iff in Hcheck.
  tauto.
Qed.

(** X16. No false alarm: when the header's field contains the field built
    from a set of byte strings, and every candidate given on the command
    line decodes to one of them, [main] never prints the soundness warning,
    whatever the node answers to the log query. *)
Theorem main_no_false_alarm {log : Type} (tty : console)
    (endpoints : string -> node log) (a : args) (header : header)
    (bloom_bytes : bytes) (cs : list bytes) (B : Z) :
  get_block (endpoints (rpc a)) (block a) = Ok header ->
  logsBloom header = Ok bloom_bytes ->
  bloom_of cs = Ok B ->
  Z.land B (int_from_bytes_big bloom_bytes) = B ->
  (forall s addr_bytes,
      truthy (address a) = Some s ->
      address_bytes (endpoints (rpc a)) s = Ok addr_bytes ->
      In addr_bytes cs) ->
  (forall s topic_bytes,
      truthy (topic0 a) = Some s ->
      parse_hex s "topic0" = Ok topic_bytes ->
      In topic_bytes cs) ->
  ~ In (Report SoundnessWarning) (fst (main tty endpoints (Parsed a) [])).
Proof.
  intros Hblock Hbloom Hbuilt Hsub Haddr Htopic Hprinted.
  apply warning_cause in Hprinted.
  destruct Hprinted
    as (a' & header' & bloom' & count & Ha & _ & Hblock' & Hbloom' & _ & _
        & Hfailed).
  injection Ha as <-.
  rewrite Hblock in Hblock'. injection Hblock' as <-.
  rewrite Hbloom in Hbloom'. injection Hbloom' as <-.
  destruct Hfailed as [(s & c & Hs & Hc & Hcheck)|(s & c & Hs & Hc & Hcheck)].
  - assert (Hpresent :
             bloom_check (int_from_bytes_big bloom_bytes) c = Ok true).
    { apply bloom_check_subfield with (B := B); [exact Hsub|].
      apply bloom_of_member with (cs := cs); [exact Hbuilt|].
      now apply Haddr with (s := s). }
    congruence.
  - assert (Hpresent :
             bloom_check (int_from_bytes_big bloom_bytes) c = Ok true).
    { apply bloom_check_subfield with (B := B); [exact Hsub|].
      apply bloom_of_member with (cs := cs); [exact Hbuilt|].
      now apply Htopic with (s := s). }
    congruence.
Qed.

Lemma main_no_false_alarm_witness :
  ~ In (Report SoundnessWarning)
       (fst (main quiet_console
                  (fun _ : string =>
                     Node true (fun _ => Ok 1)
                          (fun _ => Ok (Header (Ok (repeat "255"%byte 256))))
                          (fun _ => Ok [tt; tt; tt])
                          (fun s => Ok s))
                  (Parsed (Args 5 None (Some "0x"%string) "rpc" true)) [])).
Proof.
  apply (main_no_false_alarm _ _ _ (Header (Ok (repeat "255"%byte 256)))
           (repeat "255"%byte 256) [[]]
           (fold_left set_bit [1490; 1537; 1783] 0)).
  - reflexivity.
  - reflexivity.
  - vm_compute. reflexivity.
  - vm_compute. reflexivity.
  - intros s c Hs. cbn in Hs. discriminate Hs.
  - intros s c Hs Hc. cbn in Hs. injection Hs as <-.
    vm_compute in Hc. injection Hc as <-. left. reflexivity.
Defined.

(** X17. The count [main] prints is the number of logs the node returned
    for the filter built from the command line; it is never negative. *)
Theorem main_count_printed {log : Type} (tty : console)
    (endpoints : string -> node log) (cmd : cmdline) (count : Z) :
  In (Report (ExactLogsFound count)) (fst (main tty endpoints cmd [])) ->
  0 <= count /\
  exists a query logs,
    cmd = Parsed a /\
    log_params (endpoints (rpc a)) (block a) (address a) (topic0 a)
    = Ok query /\
    get_logs (endpoints (rpc a)) query = Ok logs /\
    count = Z.of_nat (List.length logs).
Proof.
  main_cases tty cmd.
  all: cbn [In]; intros Hprinted; in_cases Hprinted; try discriminate Hprinted.
  all: injection Hprinted as <-.
  all: match goal with
       | H : fetch_logs_count _ _ _ _ = Ok _ |- _ =>
           destruct (fetch_logs_count_ok _ _ _ _ _ H)
             as (q & logs & Hq & Hlogs & Hcount)
       end.
  all: split; [lia|do 3 eexists; split; [reflexivity|eauto]].
Qed.

Lemma main_count_printed_witness :
  0 <= 3 /\
  exists a query logs,
    Parsed (Args 5 None (Some "0x"%string) "rpc" true) = Parsed a /\
    log_params (Node true (fun _ => Ok 1)
                     (fun _ => Ok (Header (Ok (repeat "255"%byte 256))))
                     (fun _ => Ok [tt; tt; tt]) (fun s => Ok s))
               (block a) (address a) (topic0 a) = Ok query /\
    get_logs (Node true (fun _ => Ok 1)
                   (fun _ => Ok (Header (Ok (repeat "255"%byte 256))))
                   (fun _ => Ok [tt; tt; tt]) (fun s => Ok s)) query
    = Ok logs /\
    3 = Z.of_nat (List.length logs).
Proof.
  apply (main_count_printed quiet_console
           (fun _ : string =>
              Node true (fun _ => Ok 1)
                   (fun _ => Ok (Header (Ok (repeat "255"%byte 256))))
                   (fun _ => Ok [tt; tt; tt]) (fun s => Ok s))
           (Parsed (Args 5 None (Some "0x"%string) "rpc" true)) 3).
  vm_compute. auto.
Defined.

(** X18. Without [--verify], [main] prints no verification line and its
    run does not depend on what the node would answer to a log query. *)
Theorem main_without_verify {log : Type} (tty : console)
    (endpoints : string -> node log) (a : args)
    (answer : params -> result (list log)) :
  verify_flag a = false ->
  main tty (fun u => with_logs (endpoints u) answer) (Parsed a) [] =
  main tty endpoints (Parsed a) [] /\
  (forall r, ~ In (Report r) (fst (main tty endpoints (Parsed a) []))).
Proof.
  intros Hv. split.
  - unfold main, connect.
    cbn [parse_args and_then ret with_logs is_connected].
    rewrite Hv.
    destruct (truthy (address a)); destruct (truthy (topic0 a));
      destruct (is_connected (endpoints (rpc a))); reflexivity.
  - revert Hv. main_run tty; intros Hv r Hprinted; try discriminate Hv;
      cbn [In] in Hprinted; in_cases Hprinted; discriminate Hprinted.
Qed.

Lemma main_without_verify_witness :
  main quiet_console
       (fun u => with_logs
                   (Node true (fun _ => Ok 1) (fun _ => Ok (Header (Ok [])))
                         (fun _ => Ok [tt]) (fun s => Ok s))
                   (fun _ => Raise ProviderError))
       (Parsed (Args 5 None (Some "0x"%string) "rpc" false)) [] =
  main quiet_console
       (fun _ : string =>
          Node true (fun _ => Ok 1) (fun _ => Ok (Header (Ok [])))
               (fun _ => Ok [tt]) (fun s => Ok s))
       (Parsed (Args 5 None (Some "0x"%string) "rpc" false)) [] /\
  (forall r,
      ~ In (Report r)
           (fst (main quiet_console
                      (fun _ : string =>
                         Node true (fun _ => Ok 1)
                              (fun _ => Ok (Header (Ok [])))
                              (fun _ => Ok [tt]) (fun s => Ok s))
                      (Parsed (Args 5 None (Some "0x"%string) "rpc" false))
                      []))).
Proof.
  apply (main_without_verify quiet_console
           (fun _ : string =>
              Node true (fun _ => Ok 1) (fun _ => Ok (Header (Ok [])))
                   (fun _ => Ok [tt]) (fun s => Ok s))
           (Args 5 None (Some "0x"%string) "rpc" false)
           (fun _ => Raise ProviderError)).
  reflexivity.
Defined.

(** X21. What [main] prints about a candidate is the membership test of
    that candidate: the flag on the address line is the result of
    [bloom_check] on the bytes of the checksummed address, the flag on the
    topic line the result on the parsed topic, both against the field read
    from the block header. *)
Theorem main_lines_show_tests {log : Type} (tty : console)
    (endpoints : string -> node log) (cmd : cmdline) :
  (forall checksummed present,
      In (AddressLine checksummed present) (fst (main tty endpoints cmd [])) ->
      exists a s header bloom_bytes addr_bytes,
        cmd = Parsed a /\
        truthy (address a) = Some s /\
        to_checksum_address (endpoints (rpc a)) s = Ok checksummed /\
        get_block (endpoints (rpc a)) (block a) = Ok header /\
        logsBloom header = Ok bloom_bytes /\
        fromhex (drop2 checksummed) = Ok addr_bytes /\
        bloom_check (int_from_bytes_big bloom_bytes) addr_bytes
        = Ok present) /\
  (forall t present,
      In (TopicLine t present) (fst (main tty endpoints cmd [])) ->
      exists a header bloom_bytes topic_bytes,
        cmd = Parsed a /\
        truthy (topic0 a) = Some t /\
        get_block (endpoints (rpc a)) (block a) = Ok header /\
        logsBloom header = Ok bloom_bytes /\
        parse_hex t "topic0" = Ok topic_bytes /\
        bloom_check (int_from_bytes_big bloom_bytes) topic_bytes
        = Ok present).
Proof.
  main_cases tty cmd.
  all: repeat match goal with
              | b : bool |- _ => destruct b
              end.
  all: split; intros x present Hprinted; cbn [In] in Hprinted;
    in_cases Hprinted; try discriminate Hprinted.
  all: injection Hprinted as <- <-.
  all: repeat match goal with
              | |- exists _, _ => eexists
              end; split; [reflexivity|]; eauto 10.
Qed.

(** * How [main] ends *)






(** X22. On a console that takes every line, the verification lines of a
    run of [main] with [--verify] that reaches its end are, in order, the
    reports of the verification step applied to the results of the
    membership tests made and to what [fetch_logs_count] returned or
    raised. *)
Theorem main_prints_verify {log : Type} (tty : console)
    (endpoints : string -> node log) (a : args) :
  (forall out l, tty out l = Ok tt) ->
  verify_flag a = true ->
  snd (main tty endpoints (Parsed a) []) = inr tt ->
  let w3 := endpoints (rpc a) in
  exists header bloom_bytes addr_ok topic_ok,
    get_block w3 (block a) = Ok header /\
    logsBloom header = Ok bloom_bytes /\
    match truthy (address a) with
    | Some s =>
        exists addr_bytes present,
          address_bytes w3 s = Ok addr_bytes /\
          bloom_check (int_from_bytes_big bloom_bytes) addr_bytes
          = Ok present /\
          addr_ok = Some present
    | None => addr_ok = None
    end /\
    match truthy (topic0 a) with
    | Some s =>
        exists topic_bytes present,
          parse_hex s "topic0" = Ok topic_bytes /\
          bloom_check (int_from_bytes_big bloom_bytes) topic_bytes
          = Ok present /\
          topic_ok = Some present
    | None => topic_ok = None
    end /\
    reports_of (fst (main tty endpoints (Parsed a) [])) =
    verify addr_ok topic_ok
           (fetch_logs_count w3 (block a) (address a) (topic0 a)).
Proof.
  intros Hquiet. cbv zeta. main_run tty.
  all: try match goal with
           | E : _ = Raise _ |- _ =>
               rewrite Hquiet in E; discriminate E
           end.
  all: intros Hv Hend; try discriminate Hv; try discriminate Hend.
  all: do 4 eexists; split; [reflexivity|]; split; [eassumption|].
  all: split;
    [ first [ reflexivity
            | do 2 eexists; split;
              [ repeat match goal with
                       | H : ?x = _ |- context [?x] => rewrite H; cbn [bind]
                       end; reflexivity
              | split; [eassumption|reflexivity] ] ] |].
  all: split;
    [ first [ reflexivity
            | do 2 eexists; split; [reflexivity|];
              split; [eassumption|reflexivity] ] |].
  all: cbn [reports_of]; unfold verify;
    repeat match goal with
           | H : soundness_violation _ _ _ = _ |- _ => rewrite H; clear H
           | H : benign_false_positive _ _ _ = _ |- _ => rewrite H; clear H
           end; reflexivity.
Qed.

Lemma main_prints_verify_witness :
  exists header bloom_bytes addr_ok topic_ok,
    get_block (Node true (fun _ => Ok 1)
                    (fun _ => Ok (Header (Ok (repeat "000"%byte 256))))
                    (fun _ => Ok [tt; tt]) (fun s => Ok s)) 5
    = Ok header /\
    logsBloom header = Ok bloom_bytes /\
    addr_ok = None /\
    (exists topic_bytes present,
        parse_hex "0x" "topic0" = Ok topic_bytes /\
        bloom_check (int_from_bytes_big bloom_bytes) topic_bytes
        = Ok present /\
        topic_ok = Some present) /\
    reports_of
      (fst (main quiet_console
                 (fun _ : string =>
                    Node true (fun _ => Ok 1)
                         (fun _ => Ok (Header (Ok (repeat "000"%byte 256))))
                         (fun _ => Ok [tt; tt]) (fun s => Ok s))
                 (Parsed (Args 5 None (Some "0x"%string) "rpc" true)) [])) =
    verify addr_ok topic_ok
           (fetch_logs_count
              (Node true (fun _ => Ok 1)
                    (fun _ => Ok (Header (Ok (repeat "000"%byte 256))))
                    (fun _ => Ok [tt; tt]) (fun s => Ok s))
              5 None (Some "0x"%string)).
Proof.
  apply (main_prints_verify quiet_console
           (fun _ : string =>
              Node true (fun _ => Ok 1)
                   (fun _ => Ok (Header (Ok (repeat "000"%byte 256))))
                   (fun _ => Ok [tt; tt]) (fun s => Ok s))
           (Args 5 None (Some "0x"%string) "rpc" true)).
  - reflexivity.
  - reflexivity.
  - vm_compute. reflexivity.
Defined.

(** * [fetch_logs_count] *)

(** X19. The filter sent to the node covers the one block asked for: its
    [fromBlock] and [toBlock] are both the block number; it has an
    [address] entry exactly when a non-empty address was given, and its
    [topics] entry, present when a non-empty topic was given, constrains
    the first topic only. *)
Theorem log_params_filter {log : Type} (w3 : node log) (block_number : Z)
    (address topic0 : option string) (query : params) :
  log_params w3 block_number address topic0 = Ok query ->
  params_get query "fromBlock" = Some (VInt block_number) /\
  params_get query "toBlock" = Some (VInt block_number) /\
  (params_get query "address" = None <-> truthy address = None) /\
  params_get query "topics" =
  option_map (fun t => VList [t]) (truthy topic0).
Proof.
  unfold log_params.
  destruct (truthy address) as [s|];
    [destruct (to_checksum_address w3 s) as [checksummed|e]|];
    destruct (truthy topic0) as [t|]; cbn; intros H;
    try discriminate H; injection H as <-; cbn;
    repeat split; intros; try reflexivity; discriminate.
Qed.

Lemma log_params_filter_witness :
  params_get [("fromBlock"%string, VInt 7); ("toBlock"%string, VInt 7);
              ("topics"%string, VList ["0xab"%string])] "fromBlock"
  = Some (VInt 7) /\
  params_get [("fromBlock"%string, VInt 7); ("toBlock"%string, VInt 7);
              ("topics"%string, VList ["0xab"%string])] "toBlock"
  = Some (VInt 7) /\
  (params_get [("fromBlock"%string, VInt 7); ("toBlock"%string, VInt 7);
               ("topics"%string, VList ["0xab"%string])] "address" = None
   <-> truthy (Some ""%string) = None) /\
  params_get [("fromBlock"%string, VInt 7); ("toBlock"%string, VInt 7);
              ("topics"%string, VList ["0xab"%string])] "topics" =
  option_map (fun t => VList [t]) (truthy (Some "0xab"%string)).
Proof.
  apply (log_params_filter
           (Node true (fun _ => Ok 1) (fun _ => Ok (Header (Ok []))) (fun _ => Ok [tt])
                 (fun s => Ok s))
           7 (Some ""%string) (Some "0xab"%string)).
  reflexivity.
Defined.

(** X20. [fetch_logs_count] never returns a negative count, and returns 0
    exactly when the node returned no log for the filter. *)
Theorem fetch_logs_count_zero {log : Type} (w3 : node log) (block_number : Z)
    (address topic0 : option string) (count : Z) :
  fetch_logs_count w3 block_number address topic0 = Ok count ->
  0 <= count /\
  (count = 0 <->
   exists query,
     log_params w3 block_number address topic0 = Ok query /\
     get_logs w3 query = Ok []).
Proof.
  intros H.
  destruct (fetch_logs_count_ok _ _ _ _ _ H) as (q & logs & Hq & Hlogs & ->).
  split; [lia|]. split.
  - intros Hz. exists q. split; [exact Hq|].
    destruct logs; [exact Hlogs|discriminate Hz].
  - intros (q' & Hq' & Hlogs').
    rewrite Hq in Hq'. injection Hq' as <-.
    rewrite Hlogs in Hlogs'. injection Hlogs' as ->. reflexivity.
Qed.

Lemma fetch_logs_count_zero_witness :
  0 <= 0 /\
  (0 = 0 <->
   exists query,
     log_params (Node true (fun _ => Ok 1) (fun _ => Ok (Header (Ok [])))
                      (fun _ => Ok (@nil unit)) (fun s => Ok s))
                7 None None = Ok query /\
     get_logs (Node true (fun _ => Ok 1) (fun _ => Ok (Header (Ok [])))
                    (fun _ => Ok (@nil unit)) (fun s => Ok s)) query
     = Ok []).
Proof.
  apply (fetch_logs_count_zero
           (Node true (fun _ => Ok 1) (fun _ => Ok (Header (Ok [])))
                 (fun _ => Ok (@nil unit)) (fun s => Ok s))
           7 None None 0).
  reflexivity.
Defined.
